(** * mysqldump_reformat: splitting long extended-insert lines

    A shallow embedding of [src/mysqldump_reformat.py] ([State],
    [process_line], [process_file], and the functions that ask for the
    file names) and the properties of the line splitter that the
    specification states about it, followed by further properties of the
    code.

    Conventions of the embedding:
    - a Python [str] is a list of characters ([list ascii]); the scanner
      compares characters only with backslash, quote, the two parentheses,
      and slices by position, so nothing depends on the alphabet;
    - a Python [int] that counts brackets is a [Z]; positions in a line
      ([i], [start]) come from [range(len(line))] and are [nat];
    - [print] is modelled by appending the printed text to a list that
      stands for standard output, one entry per call;
    - reading and writing the files is outside the model: [process_file]
      takes the result of [f.readlines()] and returns what it writes. *)

From Stdlib Require Import Ascii String DecimalString.
From Stdlib Require Import List ZArith Bool Arith Lia.
Import ListNotations.

Set Implicit Arguments.

(** ** Python strings *)

Definition str : Type := list ascii.

(** A literal of the source, as a list of characters. *)
Definition lit (s : string) : str := list_ascii_of_string s.

Definition backslash : ascii := "092"%char.
Definition quote : ascii := "039"%char.
Definition lparen : ascii := "040"%char.
Definition rparen : ascii := "041"%char.
Definition newline : ascii := "010"%char.

(** [line[a:b]] for positions [a], [b] that are not negative. *)
Definition slice (line : str) (a b : nat) : str := firstn (b - a) (skipn a line).

(** [line[a:]]. *)
Definition slice_from (line : str) (a : nat) : str := skipn a line.

(** [line[:b]]. *)
Definition slice_to (line : str) (b : nat) : str := firstn b line.

(** [s == t] on strings. *)
Fixpoint str_eqb (s t : str) : bool :=
  match s, t with
  | [], [] => true
  | c :: s', d :: t' => Ascii.eqb c d && str_eqb s' t'
  | _, _ => false
  end.

(** [str(n)] for an integer. *)
Definition str_of_int (n : Z) : str := lit (NilEmpty.string_of_int (Z.to_int n)).

(** [len(l)] as the integer Python returns. *)
Definition len {A : Type} (l : list A) : Z := Z.of_nat (length l).

(** ** class State *)

Record State : Type := mkState {
  in_quotes : bool;   (* quote started in previous line(s)? *)
  brackets : Z        (* number of brackets opened in previous line(s) *)
}.

(** [temp_state] as [process_file] sets it up. *)
Definition initial_state : State := {| in_quotes := false; brackets := 0 |}.

(** ** process_line *)

(** The local variables of [process_line], and what it has printed. *)
Record Vars : Type := mkVars {
  v_brackets : Z;
  v_in_quotes : bool;
  v_escaped : bool;
  v_processed_line : list str;
  v_start : nat;
  v_stdout : list str
}.

Definition set_brackets (b : Z) (v : Vars) : Vars :=
  mkVars b (v_in_quotes v) (v_escaped v) (v_processed_line v) (v_start v) (v_stdout v).

Definition set_in_quotes (q : bool) (v : Vars) : Vars :=
  mkVars (v_brackets v) q (v_escaped v) (v_processed_line v) (v_start v) (v_stdout v).

Definition set_escaped (e : bool) (v : Vars) : Vars :=
  mkVars (v_brackets v) (v_in_quotes v) e (v_processed_line v) (v_start v) (v_stdout v).

Definition set_start (s : nat) (v : Vars) : Vars :=
  mkVars (v_brackets v) (v_in_quotes v) (v_escaped v) (v_processed_line v) s (v_stdout v).

(** [processed_line.append(f)] *)
Definition append_fragment (f : str) (v : Vars) : Vars :=
  mkVars (v_brackets v) (v_in_quotes v) (v_escaped v) (v_processed_line v ++ [f])
         (v_start v) (v_stdout v).

(** [print(s)] *)
Definition print (s : str) (v : Vars) : Vars :=
  mkVars (v_brackets v) (v_in_quotes v) (v_escaped v) (v_processed_line v)
         (v_start v) (v_stdout v ++ [s]).

Definition warning : str := lit "Warning: closing ')' without opening '('!".

(** The variables at the entry of the loop. *)
Definition entry (previous_state : State) : Vars :=
  {| v_brackets := brackets previous_state;
     v_in_quotes := in_quotes previous_state;
     v_escaped := false;
     v_processed_line := [];
     v_start := 0;
     v_stdout := [] |}.

(** The [if]/[elif] chain of the loop body, for the character [c = line[i]]. *)
Definition on_char (line : str) (i : nat) (c : ascii) (v : Vars) : Vars :=
  if Ascii.eqb c backslash then
    set_escaped (negb (v_escaped v)) v
  else if Ascii.eqb c quote then
    if v_escaped v then set_escaped false v
    else set_in_quotes (negb (v_in_quotes v)) v
  else if Ascii.eqb c lparen then
    let v1 :=
      if negb (v_in_quotes v) then
        let v2 :=
          if (v_brackets v =? 0)%Z then
            (* don't append additional empty line *)
            let v3 :=
              if 0 <? i
              then append_fragment (slice line (v_start v) i ++ [newline]) v
              else v in
            set_start i v3
          else v in
        set_brackets (v_brackets v2 + 1) v2
      else v in
    if v_escaped v1 then set_escaped false v1 else v1
  else if Ascii.eqb c rparen then
    let v1 :=
      if negb (v_in_quotes v) then
        if (0 <? v_brackets v)%Z then set_brackets (v_brackets v - 1) v
        else print line (print warning v)
      else v in
    if v_escaped v1 then set_escaped false v1 else v1
  else if v_escaped v then
    (* line[i] other than mentioned above *)
    set_escaped false v
  else v.

(** One turn of [for i in range(len(line))]. *)
Definition body (line : str) (i : nat) (v : Vars) : Vars :=
  match nth_error line i with
  | Some c => on_char line i c v
  | None => v
  end.

(** The variables after the turns [i = 0 .. n-1]. *)
Definition scan (line : str) (previous_state : State) (n : nat) : Vars :=
  fold_left (fun v i => body line i v) (seq 0 n) (entry previous_state).

(** The variables when the loop is over. *)
Definition scan_line (line : str) (previous_state : State) : Vars :=
  scan line previous_state (length line).

(** [process_line(line, previous_state)]: the pair it returns. *)
Definition process_line (line : str) (previous_state : State) : list str * State :=
  let v := scan_line line previous_state in
  (* append remaining part *)
  let processed_line := v_processed_line v ++ [slice_from line (v_start v)] in
  let current_state := {| in_quotes := v_in_quotes v; brackets := v_brackets v |} in
  (processed_line, current_state).

(** What [process_line(line, previous_state)] prints. *)
Definition process_line_stdout (line : str) (previous_state : State) : list str :=
  v_stdout (scan_line line previous_state).

(** ** process_file *)

(** The variables of the loop of [process_file], and what it has printed. *)
Record Run : Type := mkRun {
  temp_state : State;
  output_lines : list str;
  line_number : Z;
  stdout : list str
}.

(** [for p in processed_line: output_lines.append(p)] *)
Definition append_all (output_lines processed_line : list str) : list str :=
  fold_left (fun o p => o ++ [p]) processed_line output_lines.

(** One turn of [for line in lines]. *)
Definition file_step (lines_count : str) (r : Run) (line : str) : Run :=
  let n := (line_number r + 1)%Z in
  (* inform user that it's still alive *)
  let out :=
    if (n mod 10000 =? 0)%Z
    then stdout r ++ [lit "Processing line " ++ str_of_int n ++ lit "/" ++ lines_count]
    else stdout r in
  if length line =? 1 then
    (* do not change empty lines (containing only '\n') *)
    mkRun (temp_state r) (output_lines r ++ [line]) n out
  else if str_eqb (slice_to line 2) (lit "--") then
    (* do not change commented lines *)
    mkRun (temp_state r) (output_lines r ++ [line]) n out
  else
    let '(processed_line, st) := process_line line (temp_state r) in
    mkRun st (append_all (output_lines r) processed_line) n
          (out ++ process_line_stdout line (temp_state r)).

(** The loop over the lines read, from any state of the run. *)
Definition file_loop (lines : list str) (r : Run) : Run :=
  fold_left (file_step (str_of_int (len lines))) lines r.

(** The run at the entry of the loop of [process_file]. *)
Definition file_entry (file_name : str) : Run :=
  mkRun initial_state [] 0 [lit "Processing file: " ++ file_name ++ lit "..."].

(** [process_file(file_name, output_file_name)] where [lines] is what
    [f.readlines()] returns: the text written to the output file and the
    text printed. *)
Definition process_file (file_name : str) (lines : list str) (output_file_name : str)
  : str * list str :=
  let r := file_loop lines (file_entry file_name) in
  let written := concat (output_lines r) in
  (written,
   stdout r
   ++ [lit "Done! Input lines: " ++ str_of_int (len lines)
       ++ lit ", output lines: " ++ str_of_int (len (output_lines r))]
   ++ [lit "Saving file..."]
   ++ [lit "Done. Output file " ++ output_file_name ++ lit " ready."]).

(** The state after the lines of [lines] went through [process_line] one
    after the other. *)
Definition process_lines (lines : list str) (st : State) : State :=
  fold_left (fun s line => snd (process_line line s)) lines st.

(** ** The prompts

    The functions that ask for the file names read the console and call
    themselves again until they get an answer they accept. In the model:
    - the console is the list of the lines the user is going to type, each
      without its newline, and the list of what has been written to it;
      [input] at the end of what is typed raises [EOFError];
    - [depth] bounds the nesting of the calls of the functions of this file:
      a function called with no depth left raises [RecursionError], and
      calls the functions it calls with one less (what the interpreter's own
      functions need is not counted);
    - [str.lower], [str.upper] and [os.path.isfile] are taken as they are
      given; the files do not change while the questions are asked. *)

Record Console : Type := mkConsole {
  typed : list str;   (* what the user is going to type, line by line *)
  shown : list str    (* what has been written, one entry per prompt or print *)
}.

Inductive Outcome (A : Type) : Type :=
| Returns (a : A) (c : Console)
| EOFError (c : Console)
| RecursionError (c : Console).

Arguments EOFError {A} c.
Arguments RecursionError {A} c.

(** What comes after a call: the rest runs on what the call returns, an
    exception goes through. *)
Definition bind {A B : Type} (m : Outcome A) (k : A -> Console -> Outcome B)
  : Outcome B :=
  match m with
  | Returns a c => k a c
  | EOFError c => EOFError c
  | RecursionError c => RecursionError c
  end.

(** [print(s)] on the console. *)
Definition console_print (s : str) (c : Console) : Console :=
  mkConsole (typed c) (shown c ++ [s]).

(** [input(prompt)] *)
Definition console_input (prompt : str) (c : Console) : Outcome str :=
  match typed c with
  | [] => EOFError (console_print prompt c)
  | answer :: rest => Returns answer (mkConsole rest (shown c ++ [prompt]))
  end.

Section Prompts.

Variables lower upper : str -> str.
Variable isfile : str -> bool.

(** [ask_value(message)] *)
Fixpoint ask_value (depth : nat) (message : str) (c : Console) : Outcome str :=
  match depth with
  | 0 => RecursionError c
  | S depth =>
    bind (console_input message c) (fun answer c =>
      if str_eqb answer []
      then ask_value depth message c
      else Returns answer c)
  end.

(** [ask_confirmation(message, yes, no, default)] *)
Fixpoint ask_confirmation (depth : nat) (message yes no : str) (default : bool)
  (c : Console) : Outcome bool :=
  match depth with
  | 0 => RecursionError c
  | S depth =>
    let yes := if default then upper yes else lower yes in
    let no := if default then lower no else upper no in
    let long_message := message ++ lit " [" ++ yes ++ lit "/" ++ no ++ lit "]: " in
    bind (console_input long_message c) (fun answer c =>
      let answer := lower answer in
      if str_eqb answer (lower yes) then Returns true c
      else if str_eqb answer (lower no) then Returns false c
      else if str_eqb answer [] then Returns default c
      else ask_confirmation depth message yes no default c)
  end.

(** [file_exists(file_name)] *)
Definition file_exists (depth : nat) (file_name : str) (c : Console) : Outcome bool :=
  match depth with
  | 0 => RecursionError c
  | S _ => if isfile file_name then Returns true c else Returns false c
  end.

(** [verify_file_name(file_name)] *)
Definition verify_file_name (depth : nat) (file_name : str) (c : Console)
  : Outcome bool :=
  match depth with
  | 0 => RecursionError c
  | S depth =>
    bind (file_exists depth file_name c) (fun found c =>
      if found then
        bind (ask_confirmation depth
                (lit "File exists! Do you want to overwrite file "
                 ++ file_name ++ lit "? ")
                (lit "y") (lit "n") false c)
             (fun confirmed c =>
                if confirmed then Returns true c else Returns false c)
      else
        (* TODO: check if is correct and ready to write *)
        Returns true c)
  end.

(** [ask_output_file_name(message)] *)
Fixpoint ask_output_file_name (depth : nat) (message : str) (c : Console)
  : Outcome str :=
  match depth with
  | 0 => RecursionError c
  | S depth =>
    bind (ask_value depth message c) (fun file_name c =>
      bind (verify_file_name depth file_name c) (fun verified c =>
        if verified then Returns file_name c
        else ask_output_file_name depth message c))
  end.

(** [ask_input_file_name(message)] *)
Fixpoint ask_input_file_name (depth : nat) (message : str) (c : Console)
  : Outcome str :=
  match depth with
  | 0 => RecursionError c
  | S depth =>
    bind (ask_value depth message c) (fun file_name c =>
      bind (file_exists depth file_name c) (fun found c =>
        if found then Returns file_name c
        else
          ask_input_file_name depth message
            (console_print (lit "File not found.") c)))
  end.

End Prompts.

(** [s.lower()] and [s.upper()] on a string of ASCII characters, to try the
    prompts on. *)
Definition ascii_lower (c : ascii) : ascii :=
  let n := nat_of_ascii c in
  if (65 <=? n) && (n <=? 90) then ascii_of_nat (n + 32) else c.

Definition ascii_upper (c : ascii) : ascii :=
  let n := nat_of_ascii c in
  if (97 <=? n) && (n <=? 122) then ascii_of_nat (n - 32) else c.

Definition lower_ascii (s : str) : str := map ascii_lower s.

Definition upper_ascii (s : str) : str := map ascii_upper s.

(** A directory with the one file [out.sql], to try the prompts on. *)
Definition sample_isfile (file_name : str) : bool := str_eqb file_name (lit "out.sql").

(** ** Notions the properties are stated with *)

(** A fragment that is not the last one: a piece of the line and the
    newline appended to it. *)
Definition with_newline (piece : str) : str := piece ++ [newline].

(** The fragments with the newline that [process_line] appended to each
    fragment but the last taken off, joined in order. *)
Definition rejoin (fragments : list str) : str :=
  concat (map (@removelast ascii) (removelast fragments)) ++ last fragments [].

(** [c] opens a group at the top level: an opening bracket read outside
    quotes while no bracket is open. *)
Definition top_open (c : ascii) (v : Vars) : bool :=
  Ascii.eqb c lparen && negb (v_in_quotes v) && (v_brackets v =? 0)%Z.

(** What the loop keeps true of [processed_line] and [start] after [n]
    turns: the fragments so far are pieces of the line with a newline
    appended, the pieces are not empty and make up the line up to [start]. *)
Record Tiled (line : str) (n : nat) (v : Vars) (pieces : list str) : Prop := {
  tiled_fragments : v_processed_line v = map with_newline pieces;
  tiled_concat : concat pieces = slice_to line (v_start v);
  tiled_nonempty : Forall (fun p => p <> []) pieces;
  tiled_start : v_start v = 0 \/ v_start v < n
}.

(** The depth ([brackets]) before and after the turn that reads [line[i]]. *)
Definition depth_before (line : str) (st : State) (i : nat) : Z :=
  v_brackets (scan line st i).

Definition depth_after (line : str) (st : State) (i : nat) : Z :=
  v_brackets (scan line st (S i)).

(** The depth goes from 0 to 1 at position [i]. *)
Definition depth_0_to_1_at (line : str) (st : State) (i : nat) : bool :=
  (depth_before line st i =? 0)%Z && (depth_after line st i =? 1)%Z.

(** The depth goes from 0 to 1 at no position of the line after the first. *)
Definition no_0_to_1_after_start (line : str) (st : State) : bool :=
  forallb (fun i => negb (depth_0_to_1_at line st i)) (seq 1 (length line - 1)).

(** The line has no opening bracket. *)
Definition no_opening_bracket (line : str) : bool :=
  forallb (fun c => negb (Ascii.eqb c lparen)) line.

(** ** Notions the further properties are stated with *)

(** The depth, the quote flag and the escape flag: the variables of
    [process_line] that decide where it cuts. *)
Definition flags (v : Vars) : Z * bool * bool :=
  (v_brackets v, v_in_quotes v, v_escaped v).

Definition of_flags (k : Z * bool * bool) : Vars :=
  let '(b, q, e) := k in mkVars b q e [] 0 [].

(** The flags after the turn of the loop that reads [c]. *)
Definition feed_char (c : ascii) (k : Z * bool * bool) : Z * bool * bool :=
  flags (on_char [] 0 c (of_flags k)).

(** The flags after the turns that read the characters of [s] in order. *)
Definition feed (s : str) (k : Z * bool * bool) : Z * bool * bool :=
  fold_left (fun k c => feed_char c k) s k.

(** The state [process_line] returns, from the flags at the end of the loop. *)
Definition state_of (k : Z * bool * bool) : State :=
  let '(b, q, _) := k in {| in_quotes := q; brackets := b |}.

(** The flags at the entry of the loop. *)
Definition flags_of (st : State) : Z * bool * bool :=
  (brackets st, in_quotes st, false).

(** The fragments go through [process_line] again, one after the other as
    lines of their own: the fragments that gives and the last state. *)
Definition process_fragments (fragments : list str) (st : State) : list str * State :=
  fold_left
    (fun acc f =>
       let '(fs, s) := process_line f (snd acc) in (fst acc ++ fs, s))
    fragments ([], st).

(** [t] is [s] with newlines inserted here and there, and nothing else. *)
Inductive NewlinesInserted : str -> str -> Prop :=
| ins_done : NewlinesInserted [] []
| ins_keep (c : ascii) (s t : str) :
    NewlinesInserted s t -> NewlinesInserted (c :: s) (c :: t)
| ins_newline (s t : str) :
    NewlinesInserted s t -> NewlinesInserted s (newline :: t).

(** The number of opening brackets of a text. *)
Definition count_lparen (s : str) : nat :=
  length (filter (fun c => Ascii.eqb c lparen) s).

(** The number of closing brackets of a text. *)
Definition count_rparen (s : str) : nat :=
  length (filter (fun c => Ascii.eqb c rparen) s).

(** The line has no quote. *)
Definition no_quote (line : str) : bool :=
  forallb (fun c => negb (Ascii.eqb c quote)) line.

(** The last character of the line, if it has one, is not a backslash. *)
Definition ends_unescaped (line : str) : bool :=
  negb (Ascii.eqb (last line newline) backslash).

(** The last character of the line is a newline. *)
Definition ends_with_newline (line : str) : bool :=
  match rev line with
  | c :: _ => Ascii.eqb c newline
  | [] => false
  end.

(** [c] is a closing bracket read outside quotes while no bracket is open:
    the case in which [process_line] prints its warning. *)
Definition unbalanced_close (c : ascii) (v : Vars) : bool :=
  Ascii.eqb c rparen && negb (v_in_quotes v) && negb (0 <? v_brackets v)%Z.

(** The fragment starts with an opening bracket. *)
Definition starts_with_lparen (f : str) : Prop := hd_error f = Some lparen.

(** [fragments] is [line] cut in pieces, with a newline appended to each
    piece but the last. *)
Definition Cut (line : str) (fragments : list str) : Prop :=
  exists (pieces : list str) (rest : str),
    fragments = map with_newline pieces ++ [rest] /\ concat pieces ++ rest = line.

(** The flags at [m] are those of the scan of [line[a:m]] from the state
    [s]: the scan can be taken up again at [a] from [s]. *)
Definition resumes_at (line : str) (st : State) (a : nat) (s : State) : Prop :=
  forall m, a < m \/ a = 0 ->
            flags (scan line st m) = feed (slice line a m) (flags_of s).

(** The loop of [process_file] hands the line to [process_line]. *)
Definition not_skipped (line : str) : Prop :=
  length line <> 1 /\ slice_to line 2 <> lit "--".

(** The test of the loop of [process_file] for the lines it copies. *)
Definition skipped (line : str) : bool :=
  (length line =? 1) || str_eqb (slice_to line 2) (lit "--").

(** The number of quotes of a text. *)
Definition count_quote (s : str) : nat :=
  length (filter (fun c => Ascii.eqb c quote) s).

(** The line has no backslash. *)
Definition no_backslash (line : str) : bool :=
  forallb (fun c => negb (Ascii.eqb c backslash)) line.

(** A small dump, to try the properties on. *)
Definition sample_lines : list str :=
  [lit "INSERT INTO t VALUES (1,'a(b'),(2,'c\'');" ++ [newline];
   [newline];
   lit "-- (x)" ++ [newline];
   lit "x (y)" ++ [newline]].

(** * Properties *)

(** ** Slices *)

Lemma slice_glue (line : str) (a b : nat) :
  a <= b -> slice_to line a ++ slice line a b = slice_to line b.
Proof.
  intros Hab. unfold slice_to, slice.
  rewrite <- skipn_firstn_comm.
  replace (firstn a line) with (firstn a (firstn b line)).
  - apply firstn_skipn.
  - rewrite firstn_firstn. f_equal. lia.
Qed.

Lemma slice_length (line : str) (a b : nat) :
  b <= length line -> length (slice line a b) = b - a.
Proof.
  intros Hb. unfold slice. rewrite length_firstn, length_skipn. lia.
Qed.

Lemma str_eqb_eq (s t : str) : str_eqb s t = true <-> s = t.
Proof.
  revert t. induction s as [|c s IH]; intros [|d t]; simpl; split;
    try congruence; try discriminate.
  - intros H. apply andb_true_iff in H. destruct H as [Hc Hs].
    apply Ascii.eqb_eq in Hc. apply IH in Hs. congruence.
  - intros H. injection H as -> ->. apply andb_true_iff. split.
    + apply Ascii.eqb_refl.
    + apply IH. reflexivity.
Qed.

Lemma append_all_app (out frags : list str) : append_all out frags = out ++ frags.
Proof.
  unfold append_all. revert out.
  induction frags as [|f frags IH]; intros out; simpl.
  - symmetry. apply app_nil_r.
  - rewrite IH, <- app_assoc. reflexivity.
Qed.

(** ** The loop of process_line, turn by turn *)

Lemma scan_0 (line : str) (st : State) : scan line st 0 = entry st.
Proof. reflexivity. Qed.

Lemma scan_S (line : str) (st : State) (n : nat) :
  scan line st (S n) = body line n (scan line st n).
Proof.
  unfold scan. rewrite seq_S, fold_left_app. reflexivity.
Qed.

Lemma body_in_range (line : str) (i : nat) (v : Vars) :
  i < length line -> exists c, nth_error line i = Some c /\ body line i v = on_char line i c v.
Proof.
  intros Hi. unfold body.
  destruct (nth_error line i) as [c|] eqn:E.
  - exists c. split; reflexivity.
  - apply nth_error_None in E. lia.
Qed.

(** Case analysis on the character, in the order of the [elif] chain. *)
Ltac by_char c :=
  unfold on_char, top_open;
  destruct (Ascii.eqb_spec c backslash) as [->|_]; [simpl|
  destruct (Ascii.eqb_spec c quote) as [->|_]; [simpl|
  destruct (Ascii.eqb_spec c lparen) as [->|_]; [simpl|
  destruct (Ascii.eqb_spec c rparen) as [->|_]; simpl]]].

(** The only turn that touches [processed_line] and [start] is the one
    that reads a top-level opening bracket. *)
Lemma on_char_fragments (line : str) (i : nat) (c : ascii) (v : Vars) :
  v_processed_line (on_char line i c v) =
    (if top_open c v && (0 <? i)
     then v_processed_line v ++ [slice line (v_start v) i ++ [newline]]
     else v_processed_line v)
  /\ v_start (on_char line i c v) = (if top_open c v then i else v_start v).
Proof.
  destruct v as [b q e pl s out].
  by_char c; simpl; destruct q, e; simpl;
    try (destruct (Z.eqb_spec b 0)); try (destruct (Z.ltb_spec 0 b));
    simpl; try (destruct (0 <? i)); simpl; auto.
Qed.

Lemma on_char_top_open_depth (line : str) (i : nat) (c : ascii) (v : Vars) :
  top_open c v = true ->
  v_brackets v = 0%Z /\ v_brackets (on_char line i c v) = 1%Z.
Proof.
  destruct v as [b q e pl s out].
  by_char c; simpl; try discriminate.
  destruct q; simpl; try discriminate.
  destruct (Z.eqb_spec b 0) as [->|]; try discriminate.
  intros _. destruct e, (0 <? i); simpl; auto.
Qed.

Lemma on_char_depth_nonneg (line : str) (i : nat) (c : ascii) (v : Vars) :
  (0 <= v_brackets v)%Z -> (0 <= v_brackets (on_char line i c v))%Z.
Proof.
  destruct v as [b q e pl s out]. simpl. intros Hb.
  by_char c; destruct q, e; simpl;
    try (destruct (Z.eqb_spec b 0)); try (destruct (Z.ltb_spec 0 b));
    simpl; try (destruct (0 <? i)); simpl; lia.
Qed.

(** ** The fragments tile the line *)

Lemma entry_tiled (line : str) (st : State) : Tiled line 0 (entry st) [].
Proof.
  constructor; simpl; auto.
Qed.

Lemma on_char_tiled (line : str) (n : nat) (c : ascii) (v : Vars) (pieces : list str) :
  n < length line ->
  Tiled line n v pieces ->
  exists pieces', Tiled line (S n) (on_char line n c v) pieces'.
Proof.
  intros Hn [Hf Hc Hne Hs].
  destruct (on_char_fragments line n c v) as [Epl Est].
  destruct (top_open c v) eqn:Etop; simpl in Epl.
  - destruct (Nat.ltb_spec 0 n) as [Hpos|Hzero].
    + exists (pieces ++ [slice line (v_start v) n]). constructor.
      * rewrite Epl, Hf, map_app. reflexivity.
      * rewrite Est, concat_app, Hc. simpl. rewrite app_nil_r.
        apply slice_glue. lia.
      * apply Forall_app. split; [assumption|].
        constructor; [|constructor].
        intros E. apply (f_equal (@length ascii)) in E.
        rewrite slice_length in E by lia. simpl in E. lia.
      * rewrite Est. right. lia.
    + exists pieces. constructor.
      * rewrite Epl. assumption.
      * rewrite Est, Hc. f_equal. lia.
      * assumption.
      * rewrite Est. left. lia.
  - exists pieces. constructor.
    + rewrite Epl. assumption.
    + rewrite Est. assumption.
    + assumption.
    + rewrite Est. destruct Hs; [left|right]; lia.
Qed.

Lemma scan_tiled (line : str) (st : State) (n : nat) :
  n <= length line -> exists pieces, Tiled line n (scan line st n) pieces.
Proof.
  induction n as [|n IH]; intros Hn.
  - exists []. apply entry_tiled.
  - destruct IH as [pieces Ht]; [lia|].
    rewrite scan_S.
    destruct (@body_in_range line n (scan line st n)) as [c [_ ->]]; [lia|].
    apply on_char_tiled with (pieces := pieces); [lia|assumption].
Qed.

(** The fragments [process_line] returns, as pieces of the line. *)
Lemma process_line_pieces (line : str) (st : State) :
  exists (pieces : list str) (rest : str),
    fst (process_line line st) = map with_newline pieces ++ [rest]
    /\ concat pieces ++ rest = line
    /\ Forall (fun p => p <> []) pieces
    /\ (line <> [] -> rest <> []).
Proof.
  destruct (scan_tiled line st (n := length line)) as [pieces [Hf Hc Hne Hs]]; [lia|].
  fold (scan_line line st) in Hf, Hc, Hs.
  exists pieces, (slice_from line (v_start (scan_line line st))).
  split; [|split; [|split]].
  - unfold process_line. simpl. rewrite Hf. reflexivity.
  - rewrite Hc. apply firstn_skipn.
  - assumption.
  - intros Hline E. apply (f_equal (@length ascii)) in E.
    unfold slice_from in E. rewrite length_skipn in E. simpl in E.
    assert (0 < length line) by (destruct line; [congruence|simpl; lia]).
    lia.
Qed.

Lemma rejoin_pieces (pieces : list str) (rest : str) :
  rejoin (map with_newline pieces ++ [rest]) = concat pieces ++ rest.
Proof.
  unfold rejoin. rewrite removelast_last, last_last, map_map.
  f_equal. f_equal. rewrite <- (map_id pieces) at 2.
  apply map_ext. intros p. unfold with_newline. apply removelast_last.
Qed.

(** ** The depth is never negative *)

Lemma scan_depth_nonneg (line : str) (st : State) (n : nat) :
  (0 <= brackets st)%Z -> (0 <= v_brackets (scan line st n))%Z.
Proof.
  intros Hst. induction n as [|n IH].
  - exact Hst.
  - rewrite scan_S. unfold body.
    destruct (nth_error line n) as [c|]; [|exact IH].
    apply on_char_depth_nonneg. exact IH.
Qed.

Lemma process_line_depth_nonneg (line : str) (st : State) :
  (0 <= brackets st)%Z -> (0 <= brackets (snd (process_line line st)))%Z.
Proof.
  intros Hst. unfold process_line, scan_line. simpl.
  apply scan_depth_nonneg. exact Hst.
Qed.

Lemma process_lines_depth_nonneg (lines : list str) (st : State) :
  (0 <= brackets st)%Z -> (0 <= brackets (process_lines lines st))%Z.
Proof.
  unfold process_lines. revert st.
  induction lines as [|line lines IH]; intros st Hst; simpl.
  - exact Hst.
  - apply IH. apply process_line_depth_nonneg. exact Hst.
Qed.

(** ** One turn of the loop of process_file *)

Lemma file_step_blank (lines_count : str) (r : Run) :
  temp_state (file_step lines_count r [newline]) = temp_state r
  /\ output_lines (file_step lines_count r [newline]) = output_lines r ++ [[newline]].
Proof.
  unfold file_step. simpl. split; reflexivity.
Qed.

Lemma file_step_comment (lines_count : str) (r : Run) (line : str) :
  slice_to line 2 = lit "--" ->
  temp_state (file_step lines_count r line) = temp_state r
  /\ output_lines (file_step lines_count r line) = output_lines r ++ [line].
Proof.
  intros Hc. unfold file_step.
  destruct (length line =? 1); [split; reflexivity|].
  apply str_eqb_eq in Hc. rewrite Hc. split; reflexivity.
Qed.

Lemma file_step_other (lines_count : str) (r : Run) (line : str) :
  length line <> 1 ->
  slice_to line 2 <> lit "--" ->
  temp_state (file_step lines_count r line) = snd (process_line line (temp_state r))
  /\ output_lines (file_step lines_count r line)
     = output_lines r ++ fst (process_line line (temp_state r)).
Proof.
  intros Hlen Hc. unfold file_step.
  destruct (Nat.eqb_spec (length line) 1) as [E|_]; [contradiction|].
  destruct (str_eqb (slice_to line 2) (lit "--")) eqn:E.
  - apply str_eqb_eq in E. contradiction.
  - destruct (process_line line (temp_state r)) as [frags st'] eqn:Ep. simpl.
    split; [reflexivity|]. apply append_all_app.
Qed.

Lemma file_step_depth_nonneg (lines_count : str) (r : Run) (line : str) :
  (0 <= brackets (temp_state r))%Z ->
  (0 <= brackets (temp_state (file_step lines_count r line)))%Z.
Proof.
  intros Hr. unfold file_step.
  destruct (length line =? 1); [exact Hr|].
  destruct (str_eqb (slice_to line 2) (lit "--")); [exact Hr|].
  pose proof (process_line_depth_nonneg line (temp_state r) Hr) as Hp.
  destruct (process_line line (temp_state r)) as [frags st']. exact Hp.
Qed.

Lemma fold_file_step_depth_nonneg (lines_count : str) (lines : list str) (r : Run) :
  (0 <= brackets (temp_state r))%Z ->
  (0 <= brackets (temp_state (fold_left (file_step lines_count) lines r)))%Z.
Proof.
  revert r. induction lines as [|line lines IH]; intros r Hr; simpl.
  - exact Hr.
  - apply IH. apply file_step_depth_nonneg. exact Hr.
Qed.

(** ** Lines that are not split *)

Lemma scan_not_split (line : str) (st : State) :
  (forall i c, 0 < i -> nth_error line i = Some c ->
               top_open c (scan line st i) = false) ->
  forall n, v_processed_line (scan line st n) = [] /\ v_start (scan line st n) = 0.
Proof.
  intros Hnever n. induction n as [|n [IHpl IHst]].
  - split; reflexivity.
  - rewrite scan_S. unfold body.
    destruct (nth_error line n) as [c|] eqn:Ec; [|split; assumption].
    destruct (on_char_fragments line n c (scan line st n)) as [Epl Est].
    rewrite Epl, Est, IHpl, IHst.
    destruct n as [|n].
    + rewrite andb_false_r. destruct (top_open c _); split; reflexivity.
    + rewrite (Hnever (S n) c) by (assumption || lia). split; reflexivity.
Qed.

Lemma process_line_not_split (line : str) (st : State) :
  (forall i c, 0 < i -> nth_error line i = Some c ->
               top_open c (scan line st i) = false) ->
  fst (process_line line st) = [line].
Proof.
  intros Hnever.
  destruct (scan_not_split line st Hnever (length line)) as [Hpl Hst].
  unfold process_line, scan_line. simpl. rewrite Hpl, Hst. reflexivity.
Qed.

Lemma no_0_to_1_top_open (line : str) (st : State) :
  no_0_to_1_after_start line st = true ->
  forall i c, 0 < i -> nth_error line i = Some c ->
              top_open c (scan line st i) = false.
Proof.
  intros Hno i c Hi Ec.
  destruct (top_open c (scan line st i)) eqn:Etop; [|reflexivity].
  exfalso.
  assert (Hlen : i < length line) by (apply nth_error_Some; congruence).
  unfold no_0_to_1_after_start in Hno. rewrite forallb_forall in Hno.
  specialize (Hno i). rewrite in_seq in Hno.
  assert (Hat : negb (depth_0_to_1_at line st i) = true) by (apply Hno; lia).
  apply (on_char_top_open_depth line i) in Etop. destruct Etop as [H0 H1].
  unfold depth_0_to_1_at, depth_before, depth_after in Hat.
  rewrite scan_S in Hat. unfold body in Hat. rewrite Ec in Hat.
  rewrite H0, H1 in Hat. discriminate.
Qed.

Lemma no_opening_bracket_top_open (line : str) (i : nat) (c : ascii) (v : Vars) :
  no_opening_bracket line = true ->
  nth_error line i = Some c ->
  top_open c v = false.
Proof.
  intros Hno Ec. unfold no_opening_bracket in Hno. rewrite forallb_forall in Hno.
  apply nth_error_In in Ec. apply Hno in Ec.
  unfold top_open. destruct (Ascii.eqb c lparen); [discriminate|reflexivity].
Qed.

(** The depth goes from 0 to 1 only on a top-level opening bracket, so
    the positions where it does are the positions where the line is cut. *)
Lemma on_char_depth_0_to_1 (line : str) (i : nat) (c : ascii) (v : Vars) :
  v_brackets v = 0%Z ->
  v_brackets (on_char line i c v) = 1%Z ->
  top_open c v = true.
Proof.
  destruct v as [b q e pl s out]. simpl. intros ->.
  by_char c; destruct q, e; simpl; try (destruct (0 <? i)); simpl;
    try reflexivity; discriminate.
Qed.

Lemma no_opening_bracket_no_0_to_1 (line : str) (st : State) :
  no_opening_bracket line = true -> no_0_to_1_after_start line st = true.
Proof.
  intros Hno. unfold no_0_to_1_after_start. apply forallb_forall.
  intros i Hi. apply in_seq in Hi.
  destruct (depth_0_to_1_at line st i) eqn:E; [|reflexivity].
  exfalso. unfold depth_0_to_1_at, depth_before, depth_after in E.
  apply andb_true_iff in E. destruct E as [E0 E1].
  apply Z.eqb_eq in E0. apply Z.eqb_eq in E1.
  rewrite scan_S in E1.
  destruct (@body_in_range line i (scan line st i)) as [c [Ec Eb]]; [lia|].
  rewrite Eb in E1.
  pose proof (on_char_depth_0_to_1 line i c (scan line st i) E0 E1) as Htop.
  rewrite (no_opening_bracket_top_open line i (scan line st i) Hno Ec) in Htop.
  discriminate.
Qed.

(** A line without an opening bracket comes back as it is. *)
Lemma process_line_no_opening_bracket (line : str) (st : State) :
  no_opening_bracket line = true -> fst (process_line line st) = [line].
Proof.
  intros Hno. apply process_line_not_split.
  intros i c _ Ec. apply (no_opening_bracket_top_open line i); assumption.
Qed.

(** So does a line whose only opening bracket is its first character. *)
Lemma process_line_leading_bracket (rest : str) (st : State) :
  no_opening_bracket rest = true ->
  fst (process_line (lparen :: rest) st) = [lparen :: rest].
Proof.
  intros Hno. apply process_line_not_split.
  intros [|i] c Hi Ec; [lia|]. simpl in Ec.
  apply (no_opening_bracket_top_open rest i); assumption.
Qed.

(** * The claims *)

(** C1. Round trip: for every line and every incoming state, the fragments
    returned by [process_line], once the newline appended to each fragment
    but the last is taken off, concatenate in order to the line itself. *)
Theorem process_line_round_trip (line : str) (st : State) :
  rejoin (fst (process_line line st)) = line.
Proof.
  destruct (process_line_pieces line st) as [pieces [rest [Hf [Hc _]]]].
  rewrite Hf, rejoin_pieces. exact Hc.
Qed.

(** C2, as the specification states it, does not hold: after the line
    quote-a-b-c has left the quote open, the line d-e-f-quote-(x) is not
    returned as a single fragment. *)
Lemma cross_line_quote_single_fragment_fails :
  ~ (snd (process_line (lit "'abc") initial_state) = mkState true 0
     /\ fst (process_line (lit "def'(x)")
               (snd (process_line (lit "'abc") initial_state)))
        = [lit "def'(x)"]
     /\ snd (process_line (lit "def'(x)")
               (snd (process_line (lit "'abc") initial_state)))
        = mkState false 0).
Proof.
  intros [_ [Hfrag _]]. vm_compute in Hfrag. discriminate.
Qed.

(** C2, amended. Cross-line quote carry: from the initial state the line
    quote-a-b-c ends with the quote open at depth 0. In the next line
    d-e-f-quote-(x) the quote at position 3 closes it, so the bracket at
    position 4 is read outside quotes at depth 0 and the line is split
    before it: two fragments, d-e-f-quote with a newline appended and (x),
    and the final state has no quote open and depth 0. A bracket that
    comes before the closing quote, as in d-e-(-f-quote, gives no split. *)
Theorem cross_line_quote_carry :
  let st1 := snd (process_line (lit "'abc") initial_state) in
  st1 = mkState true 0
  /\ v_in_quotes (scan (lit "def'(x)") st1 3) = true
  /\ v_in_quotes (scan (lit "def'(x)") st1 4) = false
  /\ process_line (lit "def'(x)") st1
     = ([lit "def'" ++ [newline]; lit "(x)"], mkState false 0)
  /\ process_line (lit "de(f'") st1 = ([lit "de(f'"], mkState false 0).
Proof.
  vm_compute. repeat split.
Qed.

(** C3 fails on a line of one character that is not a newline, which can
    only be the last line of a file that does not end with a newline: the
    test [len(line) == 1] takes it for an empty line. The line ( is neither
    a line terminator nor a comment, yet the state is left as it was, while
    [process_line] would have returned depth 1; and for the line ) nothing
    is printed, while [process_line] prints the warning. *)
Theorem single_character_line_not_processed :
  let r := file_loop [lit "("] (file_entry (lit "in.sql")) in
  lit "(" <> [newline]
  /\ slice_to (lit "(") 2 <> lit "--"
  /\ temp_state r = initial_state
  /\ snd (process_line (lit "(") initial_state) = mkState false 1
  /\ temp_state r <> snd (process_line (lit "(") initial_state)
  /\ stdout (file_loop [lit ")"] (file_entry (lit "in.sql")))
     = stdout (file_entry (lit "in.sql"))
  /\ process_line_stdout (lit ")") initial_state = [warning; lit ")"].
Proof.
  vm_compute. repeat split; discriminate.
Qed.

(** C4. An opening bracket read while the quote flag is set changes neither
    the fragments, nor [start], nor the depth; and from the initial state the
    line a-quote-(-b-quote-c-(-d-) is split only before the bracket at
    position 6, into a-quote-(-b-quote-c with a newline appended, and (d). *)
Theorem quoted_bracket_does_not_split :
  (forall line i b e pl s out,
      let v := on_char line i lparen (mkVars b true e pl s out) in
      v_processed_line v = pl /\ v_start v = s /\ v_brackets v = b
      /\ v_in_quotes v = true)
  /\ process_line (lit "a'(b'c(d)") initial_state
     = ([lit "a'(b'c" ++ [newline]; lit "(d)"], mkState false 0)
  /\ nth_error (lit "a'(b'c(d)") 6 = Some lparen.
Proof.
  split; [|split; reflexivity].
  intros line i b e pl s out. destruct e; simpl; auto.
Qed.

(** C5. A closing bracket read outside quotes at depth 0 is not fatal: the
    turn leaves the depth at 0, prints the warning and the line, and goes on;
    from the initial state the line )( is still split before its last
    character, the warning is printed, and the depth returned is 1. *)
Theorem unbalanced_close_warns_and_continues :
  (forall line i e pl s out,
      on_char line i rparen (mkVars 0 false e pl s out)
      = mkVars 0 false false pl s (out ++ [warning] ++ [line]))
  /\ process_line (lit ")(") initial_state
     = ([lit ")" ++ [newline]; lit "("], mkState false 1)
  /\ process_line_stdout (lit ")(") initial_state = [warning; lit ")("]
  /\ (0 <= brackets (snd (process_line (lit ")(") initial_state)))%Z.
Proof.
  split; [|split; [reflexivity|split; [reflexivity|vm_compute; discriminate]]].
  intros line i e pl s out.
  destruct e; unfold on_char; simpl; unfold print, set_escaped; simpl;
    rewrite <- app_assoc; reflexivity.
Qed.

(** C6. If the incoming depth is not negative, the depth [process_line]
    returns is not negative, whatever the line; a closing bracket read at
    depth 0 leaves the depth at 0; so the depth is not negative after any
    sequence of processed lines, nor after any run of the loop of
    [process_file]. *)
Theorem depth_never_negative (st : State) (Hst : (0 <= brackets st)%Z) :
  (forall line, (0 <= brackets (snd (process_line line st)))%Z)
  /\ (forall line i q e pl s out,
         v_brackets (on_char line i rparen (mkVars 0 q e pl s out)) = 0%Z)
  /\ (forall lines, (0 <= brackets (process_lines lines st))%Z)
  /\ (forall lines r, temp_state r = st ->
         (0 <= brackets (temp_state (file_loop lines r)))%Z).
Proof.
  split; [|split; [|split]].
  - intros line. apply process_line_depth_nonneg. exact Hst.
  - intros line i q e pl s out. destruct q, e; reflexivity.
  - intros lines. apply process_lines_depth_nonneg. exact Hst.
  - intros lines r Hr. unfold file_loop.
    apply fold_file_step_depth_nonneg. rewrite Hr. exact Hst.
Qed.

Lemma depth_never_negative_witness :
  (0 <= brackets initial_state)%Z
  /\ (0 <= brackets (process_lines [lit "a)"; lit "(b,(c)"; lit "))"] initial_state))%Z.
Proof.
  assert (H0 : (0 <= brackets initial_state)%Z) by (simpl; lia).
  split; [exact H0|].
  exact (proj1 (proj2 (proj2 (depth_never_negative initial_state H0))) _).
Defined.

(** C7. From the initial state, in the line backslash-quote-( the backslash
    escapes the quote, which does not toggle the quote flag, and the bracket
    is then read outside quotes at depth 0: the line is split before it,
    into backslash-quote with a newline appended, and the bracket. *)
Theorem escaped_quote_then_bracket_splits :
  let line := [backslash; quote; lparen] in
  v_escaped (scan line initial_state 1) = true
  /\ v_in_quotes (scan line initial_state 2) = false
  /\ v_escaped (scan line initial_state 2) = false
  /\ v_brackets (scan line initial_state 2) = 0%Z
  /\ process_line line initial_state
     = ([[backslash; quote] ++ [newline]; [lparen]], mkState false 1).
Proof.
  vm_compute. repeat split.
Qed.

(** C8. A blank line (a newline alone) and a comment line (one that starts
    with two dashes) go to the output as they are and leave the state of the
    run as it was, whatever that state is. *)
Theorem skipped_lines_keep_state (lines_count : str) (r : Run) (line : str)
  (Hskip : line = [newline] \/ slice_to line 2 = lit "--") :
  temp_state (file_step lines_count r line) = temp_state r
  /\ output_lines (file_step lines_count r line) = output_lines r ++ [line].
Proof.
  destruct Hskip as [->|Hc].
  - apply file_step_blank.
  - apply file_step_comment. exact Hc.
Qed.

Lemma skipped_lines_keep_state_witness :
  slice_to (lit "-- note 'x' (" ++ [newline]) 2 = lit "--"
  /\ temp_state (file_step (lit "3") (mkRun (mkState true 2) [lit "('a"] 1 [])
                           (lit "-- note 'x' (" ++ [newline]))
     = mkState true 2.
Proof.
  split; [reflexivity|].
  refine (proj1 (@skipped_lines_keep_state _ _ _ _)).
  right. reflexivity.
Defined.

(** C9. A line on which the depth goes from 0 to 1 at no position after the
    first comes back as one fragment, the line itself. *)
Theorem unsplit_line_single_fragment (line : str) (st : State)
  (Hno : no_0_to_1_after_start line st = true) :
  fst (process_line line st) = [line].
Proof.
  apply process_line_not_split. apply no_0_to_1_top_open. exact Hno.
Qed.

Lemma unsplit_line_single_fragment_witness :
  no_0_to_1_after_start (lit "(1,'a(b',(2))" ++ [newline]) initial_state = true
  /\ fst (process_line (lit "(1,'a(b',(2))" ++ [newline]) initial_state)
     = [lit "(1,'a(b',(2))" ++ [newline]].
Proof.
  split; [reflexivity|].
  apply unsplit_line_single_fragment. reflexivity.
Defined.

(** C10. For a line that is not empty, [process_line] returns at least one
    fragment, no fragment is empty, and the fragments are pieces of the line,
    in order and making up the whole line, where each piece but the last has
    one newline appended and the last has none. *)
Theorem fragments_shape (line : str) (st : State) (Hline : line <> []) :
  fst (process_line line st) <> []
  /\ Forall (fun f => f <> []) (fst (process_line line st))
  /\ exists (pieces : list str) (rest : str),
       fst (process_line line st) = map with_newline pieces ++ [rest]
       /\ concat pieces ++ rest = line.
Proof.
  destruct (process_line_pieces line st) as [pieces [rest [Hf [Hc [Hne Hrest]]]]].
  rewrite Hf. split; [|split].
  - intros E. apply app_eq_nil in E. destruct E as [_ E]. discriminate.
  - apply Forall_app. split.
    + apply Forall_map. apply Forall_forall. intros p _ E.
      unfold with_newline in E. apply app_eq_nil in E. destruct E as [_ E].
      discriminate.
    + constructor; [|constructor]. apply Hrest. exact Hline.
  - exists pieces, rest. split; [reflexivity|exact Hc].
Qed.

Lemma fragments_shape_witness :
  lit "x(1),(2)" <> []
  /\ Forall (fun f => f <> []) (fst (process_line (lit "x(1),(2)") initial_state)).
Proof.
  assert (Hline : lit "x(1),(2)" <> []) by discriminate.
  split; [exact Hline|].
  exact (proj1 (proj2 (@fragments_shape (lit "x(1),(2)") initial_state Hline))).
Defined.

(** * Further properties of the code *)

(** ** The flags do not depend on the positions *)

Lemma on_char_flags (line : str) (i : nat) (c : ascii) (v : Vars) :
  flags (on_char line i c v) = feed_char c (flags v).
Proof.
  destruct v as [b q e pl s out]. unfold feed_char, flags, of_flags.
  by_char c; destruct q, e; simpl;
    try (destruct (Z.eqb_spec b 0)); try (destruct (Z.ltb_spec 0 b));
    simpl; try (destruct (0 <? i)); simpl; reflexivity.
Qed.

Lemma top_open_flags (c : ascii) (v : Vars) :
  top_open c v = top_open c (of_flags (flags v)).
Proof.
  destruct v. reflexivity.
Qed.

Lemma feed_app (s t : str) (k : Z * bool * bool) :
  feed (s ++ t) k = feed t (feed s k).
Proof.
  unfold feed. apply fold_left_app.
Qed.

Lemma firstn_S_nth_error (line : str) (n : nat) (c : ascii) :
  nth_error line n = Some c -> firstn (S n) line = firstn n line ++ [c].
Proof.
  revert n. induction line as [|d line IH]; intros [|n] E; simpl in *;
    try discriminate.
  - congruence.
  - f_equal. apply IH. exact E.
Qed.

Lemma scan_flags (line : str) (st : State) (n : nat) :
  flags (scan line st n) = feed (firstn n line) (flags_of st).
Proof.
  induction n as [|n IH].
  - reflexivity.
  - rewrite scan_S. unfold body.
    destruct (nth_error line n) as [c|] eqn:Ec.
    + rewrite on_char_flags, IH, (firstn_S_nth_error line n Ec), feed_app.
      reflexivity.
    + apply nth_error_None in Ec.
      rewrite IH, !firstn_all2 by lia. reflexivity.
Qed.

Lemma process_line_state (line : str) (st : State) :
  snd (process_line line st) = state_of (feed line (flags_of st)).
Proof.
  pose proof (scan_flags line st (length line)) as H.
  rewrite firstn_all in H. fold (scan_line line st) in H.
  unfold process_line. simpl. rewrite <- H.
  unfold flags. reflexivity.
Qed.

(** After any character but a backslash the escape flag is down. *)
Lemma feed_char_unescaped (c : ascii) (k : Z * bool * bool) :
  c <> backslash -> snd (feed_char c k) = false.
Proof.
  intros Hc. destruct k as [[b q] e]. unfold feed_char, flags, of_flags.
  unfold on_char.
  destruct (Ascii.eqb_spec c backslash) as [E|_]; [contradiction|].
  destruct (Ascii.eqb c quote), (Ascii.eqb c lparen), (Ascii.eqb c rparen), q, e;
    simpl; try (destruct (Z.eqb_spec b 0)); try (destruct (Z.ltb_spec 0 b));
    reflexivity.
Qed.

Lemma feed_unescaped (line : str) (k : Z * bool * bool) :
  ends_unescaped line = true -> snd k = false -> snd (feed line k) = false.
Proof.
  destruct line as [|c line] using rev_ind; intros Hend Hk.
  - exact Hk.
  - rewrite feed_app. simpl. apply feed_char_unescaped.
    unfold ends_unescaped in Hend. rewrite last_last in Hend.
    destruct (Ascii.eqb_spec c backslash); [discriminate|assumption].
Qed.

Lemma flags_of_state_of (k : Z * bool * bool) :
  snd k = false -> flags_of (state_of k) = k.
Proof.
  destruct k as [[b q] e]. simpl. intros ->. reflexivity.
Qed.

Lemma process_lines_feed (lines : list str) (st : State) :
  forallb ends_unescaped lines = true ->
  process_lines lines st = state_of (feed (concat lines) (flags_of st)).
Proof.
  unfold process_lines. revert st.
  induction lines as [|line lines IH]; intros st Hends; cbn [fold_left concat].
  - destruct st. reflexivity.
  - cbn [forallb] in Hends. apply andb_true_iff in Hends.
    destruct Hends as [Hl Hls].
    rewrite IH by exact Hls.
    rewrite process_line_state, feed_app, flags_of_state_of; [reflexivity|].
    apply feed_unescaped; [exact Hl|reflexivity].
Qed.

(** ** What process_line prints *)

Lemma on_char_stdout (line : str) (i : nat) (c : ascii) (v : Vars) :
  v_stdout (on_char line i c v) =
    (if unbalanced_close c v then v_stdout v ++ [warning; line] else v_stdout v).
Proof.
  destruct v as [b q e pl s out]. unfold unbalanced_close.
  by_char c; destruct q, e; simpl;
    try (destruct (Z.eqb_spec b 0)); try (destruct (Z.ltb_spec 0 b));
    simpl; try (destruct (0 <? i)); simpl; try reflexivity;
    rewrite <- app_assoc; reflexivity.
Qed.

Lemma count_rparen_snoc (s : str) (c : ascii) :
  count_rparen (s ++ [c])
  = count_rparen s + (if Ascii.eqb c rparen then 1 else 0).
Proof.
  unfold count_rparen. rewrite filter_app, length_app. simpl.
  destruct (Ascii.eqb c rparen); reflexivity.
Qed.

Lemma count_lparen_snoc (s : str) (c : ascii) :
  count_lparen (s ++ [c])
  = count_lparen s + (if Ascii.eqb c lparen then 1 else 0).
Proof.
  unfold count_lparen. rewrite filter_app, length_app. simpl.
  destruct (Ascii.eqb c lparen); reflexivity.
Qed.

Lemma scan_stdout (line : str) (st : State) (n : nat) :
  exists k, k <= count_rparen (firstn n line)
            /\ v_stdout (scan line st n) = concat (repeat [warning; line] k).
Proof.
  induction n as [|n [k [Hk Hout]]].
  - exists 0. split; [lia|reflexivity].
  - rewrite scan_S. unfold body.
    destruct (nth_error line n) as [c|] eqn:Ec.
    + rewrite on_char_stdout, (firstn_S_nth_error line n Ec), count_rparen_snoc.
      destruct (unbalanced_close c (scan line st n)) eqn:Eu.
      * exists (k + 1). split.
        -- unfold unbalanced_close in Eu.
           destruct (Ascii.eqb c rparen); [lia|discriminate].
        -- rewrite Hout, repeat_app, concat_app. simpl. reflexivity.
      * exists k. split; [lia|exact Hout].
    + apply nth_error_None in Ec. exists k. split; [|exact Hout].
      rewrite firstn_all2 in * by lia. exact Hk.
Qed.

(** ** Lines inside a quoted string *)

Lemma feed_char_in_quotes (c : ascii) (b : Z) (e : bool) :
  c <> quote -> fst (feed_char c (b, true, e)) = (b, true).
Proof.
  intros Hc. unfold feed_char, flags, of_flags, on_char.
  destruct (Ascii.eqb_spec c quote) as [E|_]; [contradiction|].
  destruct (Ascii.eqb c backslash), (Ascii.eqb c lparen), (Ascii.eqb c rparen), e;
    reflexivity.
Qed.

Lemma feed_in_quotes (s : str) (b : Z) (e : bool) :
  no_quote s = true -> fst (feed s (b, true, e)) = (b, true).
Proof.
  revert e. induction s as [|c s IH]; intros e Hno.
  - reflexivity.
  - cbn [no_quote forallb] in Hno. apply andb_true_iff in Hno.
    destruct Hno as [Hc Hs].
    assert (Hq : c <> quote) by (destruct (Ascii.eqb_spec c quote); [discriminate|assumption]).
    pose proof (@feed_char_in_quotes c b e Hq) as Hstep.
    cbn [feed fold_left]. fold (feed s (feed_char c (b, true, e))).
    destruct (feed_char c (b, true, e)) as [[b' q'] e']. simpl in Hstep.
    injection Hstep as -> ->. apply IH. exact Hs.
Qed.

Lemma no_quote_firstn (s : str) (n : nat) :
  no_quote s = true -> no_quote (firstn n s) = true.
Proof.
  unfold no_quote. intros H.
  rewrite <- (firstn_skipn n s), forallb_app in H.
  apply andb_true_iff in H. apply H.
Qed.

Lemma scan_in_quotes (line : str) (st : State) (n : nat) :
  in_quotes st = true -> no_quote line = true ->
  v_in_quotes (scan line st n) = true /\ v_brackets (scan line st n) = brackets st.
Proof.
  intros Hq Hno.
  pose proof (scan_flags line st n) as Hf.
  pose proof (@feed_in_quotes (firstn n line) (brackets st) false
                (@no_quote_firstn line n Hno)) as Hk.
  unfold flags_of in Hf. rewrite Hq in Hf. rewrite <- Hf in Hk.
  unfold flags in Hk. simpl in Hk. injection Hk as Hb Hi. split; assumption.
Qed.

Lemma scan_in_quotes_stdout (line : str) (st : State) (n : nat) :
  in_quotes st = true -> no_quote line = true -> v_stdout (scan line st n) = [].
Proof.
  intros Hq Hno. induction n as [|n IH].
  - reflexivity.
  - rewrite scan_S. unfold body.
    destruct (nth_error line n) as [c|]; [|exact IH].
    rewrite on_char_stdout. unfold unbalanced_close.
    destruct (@scan_in_quotes line st n Hq Hno) as [-> _].
    rewrite andb_false_r. exact IH.
Qed.

(** ** Where the line is cut *)

Lemma hd_error_slice (line t : str) (a b : nat) :
  a < b -> a < length line -> hd_error (slice line a b ++ t) = nth_error line a.
Proof.
  intros Hab Ha. unfold slice. rewrite <- hd_error_skipn.
  destruct (b - a) as [|k] eqn:E; [lia|].
  destruct (skipn a line) eqn:Es; [|reflexivity].
  apply (f_equal (@length ascii)) in Es. rewrite length_skipn in Es.
  simpl in Es. lia.
Qed.

Lemma top_open_lparen (c : ascii) (v : Vars) : top_open c v = true -> c = lparen.
Proof.
  unfold top_open. destruct (Ascii.eqb_spec c lparen); [auto|discriminate].
Qed.

Lemma scan_fragment_starts (line : str) (st : State) (n : nat) :
  n <= length line ->
  Forall starts_with_lparen (tl (v_processed_line (scan line st n)))
  /\ (v_processed_line (scan line st n) <> [] ->
      nth_error line (v_start (scan line st n)) = Some lparen).
Proof.
  induction n as [|n IH]; intros Hn.
  - split; [constructor|]. intros H. exfalso. apply H. reflexivity.
  - destruct IH as [IHtl IHst]; [lia|].
    destruct (@scan_tiled line st n) as [pieces [_ _ _ Hs]]; [lia|].
    rewrite scan_S.
    destruct (@body_in_range line n (scan line st n)) as [c [Ec ->]]; [lia|].
    destruct (on_char_fragments line n c (scan line st n)) as [Epl Est].
    rewrite Epl, Est.
    destruct (top_open c (scan line st n)) eqn:Etop; [|split; assumption].
    apply top_open_lparen in Etop. subst c.
    destruct (Nat.ltb_spec 0 n) as [Hpos|Hzero]; simpl.
    + split; [|intros _; exact Ec].
      destruct (v_processed_line (scan line st n)) as [|f pl] eqn:E.
      * constructor.
      * simpl in *. apply Forall_app. split; [exact IHtl|].
        constructor; [|constructor]. unfold starts_with_lparen.
        rewrite hd_error_slice by lia. apply IHst. discriminate.
    + split; [exact IHtl|]. intros _. exact Ec.
Qed.

Lemma scan_fragment_count (line : str) (st : State) (n : nat) :
  length (v_processed_line (scan line st n)) <= count_lparen (firstn n line).
Proof.
  induction n as [|n IH].
  - simpl. lia.
  - rewrite scan_S. unfold body.
    destruct (nth_error line n) as [c|] eqn:Ec.
    + destruct (on_char_fragments line n c (scan line st n)) as [Epl _].
      rewrite Epl, (firstn_S_nth_error line n Ec), count_lparen_snoc.
      destruct (top_open c (scan line st n)) eqn:Etop; simpl; [|lia].
      apply top_open_lparen in Etop. subst c. simpl.
      destruct (0 <? n); [rewrite length_app; simpl|]; lia.
    + apply nth_error_None in Ec. rewrite firstn_all2 in * by lia. exact IH.
Qed.

(** ** The text written by process_file *)

Lemma inserted_refl (s : str) : NewlinesInserted s s.
Proof.
  induction s; constructor; assumption.
Qed.

Lemma inserted_app (s t s' t' : str) :
  NewlinesInserted s t -> NewlinesInserted s' t' ->
  NewlinesInserted (s ++ s') (t ++ t').
Proof.
  intros H H'. induction H; simpl; [assumption|constructor..]; assumption.
Qed.

Lemma inserted_with_newline (s : str) : NewlinesInserted s (with_newline s).
Proof.
  unfold with_newline. rewrite <- (app_nil_r s) at 1.
  apply inserted_app; [apply inserted_refl|]. constructor. constructor.
Qed.

Lemma cut_inserted (line : str) (g : list str) :
  Cut line g -> NewlinesInserted line (concat g).
Proof.
  intros [pieces [rest [-> <-]]]. rewrite concat_app. simpl. rewrite app_nil_r.
  apply inserted_app; [|apply inserted_refl].
  induction pieces as [|p pieces IH]; simpl; [constructor|].
  apply inserted_app; [apply inserted_with_newline|exact IH].
Qed.

Lemma cut_rejoin (line : str) (g : list str) : Cut line g -> rejoin g = line.
Proof.
  intros [pieces [rest [-> <-]]]. apply rejoin_pieces.
Qed.

Lemma cut_whole (line : str) : Cut line [line].
Proof.
  exists [], line. split; reflexivity.
Qed.

Lemma process_line_cut (line : str) (st : State) : Cut line (fst (process_line line st)).
Proof.
  destruct (process_line_pieces line st) as [pieces [rest [Hf [Hc _]]]].
  exists pieces, rest. split; assumption.
Qed.

Lemma process_line_count (line : str) (st : State) :
  1 <= length (fst (process_line line st)) <= 1 + count_lparen line.
Proof.
  unfold process_line. simpl. rewrite length_app. simpl.
  pose proof (scan_fragment_count line st (length line)) as H.
  rewrite firstn_all in H. fold (scan_line line st) in H. lia.
Qed.

(** What one turn of the loop of [process_file] adds to the output. *)
Lemma file_step_output (lines_count : str) (r : Run) (line : str) :
  exists g,
    output_lines (file_step lines_count r line) = output_lines r ++ g
    /\ (g = [line] \/ g = fst (process_line line (temp_state r))).
Proof.
  unfold file_step.
  destruct (length line =? 1); [exists [line]; split; auto|].
  destruct (str_eqb (slice_to line 2) (lit "--")); [exists [line]; split; auto|].
  destruct (process_line line (temp_state r)) as [frags st'] eqn:E.
  exists frags. simpl. split; [apply append_all_app|right; reflexivity].
Qed.

Lemma fold_file_step_output (lines_count : str) (lines : list str) (r : Run) :
  exists groups,
    output_lines (fold_left (file_step lines_count) lines r)
    = output_lines r ++ concat groups
    /\ Forall2 Cut lines groups
    /\ Forall2 (fun line g => 1 <= length g <= 1 + count_lparen line) lines groups.
Proof.
  revert r. induction lines as [|line lines IH]; intros r.
  - exists []. simpl. rewrite app_nil_r. repeat split; constructor.
  - simpl. destruct (IH (file_step lines_count r line)) as [groups [Ho [Hc Hn]]].
    destruct (file_step_output lines_count r line) as [g [Hg Hwhich]].
    exists (g :: groups). rewrite Ho, Hg. simpl. rewrite app_assoc.
    split; [reflexivity|]. split; constructor; try assumption.
    + destruct Hwhich as [->| ->]; [apply cut_whole|apply process_line_cut].
    + destruct Hwhich as [->| ->]; [simpl; lia|apply process_line_count].
Qed.

Lemma count_lparen_app (s t : str) :
  count_lparen (s ++ t) = count_lparen s + count_lparen t.
Proof.
  unfold count_lparen. rewrite filter_app, length_app. reflexivity.
Qed.

(** ** Processing the fragments again *)

Lemma top_open_ext (c : ascii) (v v' : Vars) :
  flags v = flags v' -> top_open c v = top_open c v'.
Proof.
  intros H. rewrite (top_open_flags c v), (top_open_flags c v'), H. reflexivity.
Qed.

Lemma top_open_flags_inv (c : ascii) (v : Vars) :
  top_open c v = true -> exists e, flags v = (0%Z, false, e).
Proof.
  destruct v as [b q e pl s out]. unfold top_open, flags. simpl.
  destruct (Ascii.eqb c lparen), q; simpl; try discriminate.
  destruct (Z.eqb_spec b 0) as [->|]; [|discriminate].
  intros _. exists e. reflexivity.
Qed.

Lemma slice_0 (line : str) (m : nat) : slice line 0 m = firstn m line.
Proof.
  unfold slice. rewrite Nat.sub_0_r. reflexivity.
Qed.

Lemma slice_all (line : str) (a : nat) : slice line a (length line) = slice_from line a.
Proof.
  unfold slice, slice_from. apply firstn_all2. rewrite length_skipn. lia.
Qed.

Lemma slice_prefix (line : str) (a i m : nat) :
  a + i <= m -> firstn i (slice line a m) = slice line a (a + i).
Proof.
  intros H. unfold slice. rewrite firstn_firstn.
  f_equal. lia.
Qed.

Lemma slice_nth_error (line : str) (a i m : nat) :
  a + i < m -> nth_error (slice line a m) i = nth_error line (a + i).
Proof.
  intros H. unfold slice. rewrite nth_error_firstn, nth_error_skipn.
  destruct (Nat.ltb_spec i (m - a)); [reflexivity|lia].
Qed.

Lemma slice_cons (line : str) (a m : nat) (c : ascii) :
  nth_error line a = Some c -> a < m ->
  slice line a m = c :: slice line (S a) m.
Proof.
  intros Ec Ham. unfold slice.
  replace (m - a) with (S (m - S a)) by lia.
  rewrite <- (firstn_skipn_middle a line Ec) at 1.
  rewrite skipn_app, skipn_all2 by (rewrite length_firstn; lia).
  replace (a - length (firstn a line)) with 0.
  - reflexivity.
  - assert (a < length line) by (apply nth_error_Some; congruence).
    rewrite length_firstn. lia.
Qed.

Lemma resumes_at_start (line : str) (st : State) : resumes_at line st 0 st.
Proof.
  intros m _. rewrite slice_0. apply scan_flags.
Qed.

Lemma resumes_at_top_open (line : str) (st : State) (a : nat) (c : ascii) :
  nth_error line a = Some c ->
  top_open c (scan line st a) = true ->
  0 < a ->
  resumes_at line st a (mkState false 0).
Proof.
  intros Ec Etop Ha m [Ham|E0]; [|lia].
  rewrite scan_flags.
  change (firstn m line) with (slice_to line m).
  rewrite <- (@slice_glue line a m) by lia. unfold slice_to.
  rewrite feed_app, <- (scan_flags line st a).
  destruct (top_open_flags_inv c _ Etop) as [e ->].
  apply top_open_lparen in Etop. subst c.
  rewrite (slice_cons line Ec Ham).
  destruct e; reflexivity.
Qed.

(** A stretch of the line between two cuts, followed by characters that
    are no opening brackets, is not cut when it is processed from the state
    the scan resumes from. *)
Lemma stretch_not_split (line : str) (st : State) (a m : nat) (s : State) (t : str) :
  m <= length line ->
  resumes_at line st a s ->
  (forall j c, a < j < m -> nth_error line j = Some c ->
               top_open c (scan line st j) = false) ->
  no_opening_bracket t = true ->
  forall i c, 0 < i -> nth_error (slice line a m ++ t) i = Some c ->
              top_open c (scan (slice line a m ++ t) s i) = false.
Proof.
  intros Hm Hres Hnone Ht i c Hi Ec.
  destruct (Nat.lt_ge_cases i (length (slice line a m))) as [Hin|Hout].
  - rewrite slice_length in Hin by exact Hm.
    rewrite nth_error_app1 in Ec by (rewrite slice_length by exact Hm; exact Hin).
    rewrite slice_nth_error in Ec by lia.
    rewrite <- (Hnone (a + i) c) by (assumption || lia).
    apply top_open_ext.
    rewrite scan_flags, firstn_app, slice_length by exact Hm.
    replace (i - (m - a)) with 0 by lia. simpl. rewrite app_nil_r.
    rewrite slice_prefix by lia. symmetry. apply Hres. lia.
  - rewrite nth_error_app2 in Ec by exact Hout.
    apply (no_opening_bracket_top_open t (i - length (slice line a m))); assumption.
Qed.

Lemma process_line_whole (f : str) (s : State) :
  (forall i c, 0 < i -> nth_error f i = Some c -> top_open c (scan f s i) = false) ->
  process_line f s = ([f], state_of (feed f (flags_of s))).
Proof.
  intros H.
  rewrite (surjective_pairing (process_line f s)).
  rewrite (process_line_not_split f s H), process_line_state. reflexivity.
Qed.

Lemma process_fragments_snoc (fs : list str) (f : str) (st : State) :
  process_fragments (fs ++ [f]) st
  = (fst (process_fragments fs st) ++ fst (process_line f (snd (process_fragments fs st))),
     snd (process_line f (snd (process_fragments fs st)))).
Proof.
  unfold process_fragments. rewrite fold_left_app. cbn [fold_left].
  match goal with |- context [process_line f ?s] => destruct (process_line f s) end.
  reflexivity.
Qed.

(** No top-level opening bracket is read between [start] and the turn the
    loop is at. *)
Lemma scan_no_top_open_since_start (line : str) (st : State) (n : nat) :
  forall j c, v_start (scan line st n) < j < n -> nth_error line j = Some c ->
              top_open c (scan line st j) = false.
Proof.
  induction n as [|n IH]; intros j c Hj Ec; [lia|].
  rewrite scan_S in Hj. unfold body in Hj.
  destruct (nth_error line n) as [c0|] eqn:Ec0.
  - destruct (on_char_fragments line n c0 (scan line st n)) as [_ Est].
    rewrite Est in Hj.
    destruct (top_open c0 (scan line st n)) eqn:Etop; [lia|].
    destruct (Nat.eq_dec j n) as [->|Hne].
    + congruence.
    + apply IH; [lia|exact Ec].
  - apply nth_error_None in Ec0.
    assert (j < length line) by (apply nth_error_Some; congruence).
    apply IH; [lia|exact Ec].
Qed.

Lemma state_of_flags (v : Vars) :
  state_of (flags v) = {| in_quotes := v_in_quotes v; brackets := v_brackets v |}.
Proof.
  reflexivity.
Qed.

(** The fragments cut so far come back as they are when they are processed
    again, and the scan resumes at [start] from the state they end in. *)
Lemma scan_reprocess (line : str) (st : State) (n : nat) :
  n <= length line ->
  exists s,
    process_fragments (v_processed_line (scan line st n)) st
    = (v_processed_line (scan line st n), s)
    /\ resumes_at line st (v_start (scan line st n)) s.
Proof.
  induction n as [|n IH]; intros Hn.
  - exists st. split; [reflexivity|apply resumes_at_start].
  - destruct IH as [s [Hfr Hres]]; [lia|].
    destruct (@scan_tiled line st n) as [pieces [_ _ _ Hs]]; [lia|].
    pose proof (@scan_no_top_open_since_start line st n) as Hnone.
    rewrite scan_S.
    destruct (@body_in_range line n (scan line st n)) as [c [Ec ->]]; [lia|].
    destruct (on_char_fragments line n c (scan line st n)) as [Epl Est].
    rewrite Epl, Est.
    destruct (top_open c (scan line st n)) eqn:Etop; [|exists s; split; assumption].
    destruct (Nat.ltb_spec 0 n) as [Hpos|Hzero]; cbn [andb].
    + exists (mkState false 0). split.
      * rewrite process_fragments_snoc, Hfr. cbn [fst snd].
        rewrite process_line_whole.
        -- cbn [fst snd]. f_equal.
           rewrite feed_app, <- Hres by lia.
           destruct (top_open_flags_inv c _ Etop) as [e ->].
           destruct e; reflexivity.
        -- apply stretch_not_split with (st := st);
             [lia|exact Hres|exact Hnone|reflexivity].
      * apply (@resumes_at_top_open line st n c Ec Etop Hpos).
    + exists s. split; [exact Hfr|].
      assert (n = 0) by lia. subst n. exact Hres.
Qed.

Lemma process_fragments_process_line (line : str) (st : State) :
  process_fragments (fst (process_line line st)) st = process_line line st.
Proof.
  destruct (@scan_reprocess line st (length line)) as [s [Hfr Hres]]; [lia|].
  destruct (@scan_tiled line st (length line)) as [pieces [_ _ _ Hs]]; [lia|].
  pose proof (@scan_no_top_open_since_start line st (length line)) as Hnone.
  fold (scan_line line st) in Hfr, Hres, Hs, Hnone.
  unfold process_line. cbn [fst snd].
  rewrite process_fragments_snoc, Hfr. cbn [fst snd].
  rewrite <- slice_all, <- (app_nil_r (slice line _ _)).
  rewrite process_line_whole.
  - cbn [fst snd]. f_equal.
    rewrite app_nil_r, <- Hres by lia. apply state_of_flags.
  - apply stretch_not_split with (st := st);
      [lia|exact Hres|exact Hnone|reflexivity].
Qed.

(** ** Fragments as lines of a file *)

Lemma fold_file_step_fragments (lines_count : str) (fragments : list str) (r : Run) :
  Forall not_skipped fragments ->
  output_lines (fold_left (file_step lines_count) fragments r)
  = output_lines r ++ fst (process_fragments fragments (temp_state r))
  /\ temp_state (fold_left (file_step lines_count) fragments r)
     = snd (process_fragments fragments (temp_state r)).
Proof.
  induction fragments as [|f fragments IH] using rev_ind; intros Hall.
  - simpl. rewrite app_nil_r. split; reflexivity.
  - apply Forall_app in Hall. destruct Hall as [Hfs Hf].
    inversion Hf as [|? ? [Hlen Hc] _]; subst.
    destruct (IH Hfs) as [Ho Hs].
    rewrite fold_left_app, process_fragments_snoc. cbn [fold_left fst snd].
    destruct (@file_step_other lines_count
                (fold_left (file_step lines_count) fragments r) f Hlen Hc)
      as [Hst Hout].
    rewrite Hst, Hout, Ho, Hs, app_assoc. split; reflexivity.
Qed.

Lemma process_line_fragment_starts (line : str) (st : State) :
  Forall starts_with_lparen (tl (fst (process_line line st))).
Proof.
  destruct (@scan_fragment_starts line st (length line)) as [Htl Hst]; [lia|].
  fold (scan_line line st) in Htl, Hst.
  unfold process_line. cbn [fst].
  destruct (v_processed_line (scan_line line st)) as [|f pl]; [constructor|].
  cbn [tl app] in *. apply Forall_app. split; [exact Htl|].
  constructor; [|constructor]. unfold starts_with_lparen, slice_from.
  rewrite hd_error_skipn. apply Hst. discriminate.
Qed.

Lemma ends_with_newline_snoc (s : str) (c : ascii) :
  ends_with_newline (s ++ [c]) = Ascii.eqb c newline.
Proof.
  unfold ends_with_newline. rewrite rev_app_distr. reflexivity.
Qed.

Lemma ends_with_newline_suffix (s t : str) :
  t <> [] -> ends_with_newline (s ++ t) = ends_with_newline t.
Proof.
  intros Ht. unfold ends_with_newline. rewrite rev_app_distr.
  destruct (rev t) as [|c r] eqn:E; [|reflexivity].
  apply (f_equal (@rev ascii)) in E. rewrite rev_involutive in E. contradiction.
Qed.

Lemma process_line_fragments_end (line : str) (st : State) :
  ends_with_newline line = true ->
  Forall (fun f => ends_with_newline f = true) (fst (process_line line st)).
Proof.
  intros Hend.
  destruct (process_line_pieces line st) as [pieces [rest [-> [Hc [_ Hrest]]]]].
  apply Forall_app. split.
  - apply Forall_map. apply Forall_forall. intros p _.
    unfold with_newline. rewrite ends_with_newline_snoc. reflexivity.
  - constructor; [|constructor].
    assert (Hline : line <> []) by (intros ->; discriminate).
    rewrite <- Hc, ends_with_newline_suffix in Hend by (apply Hrest; exact Hline).
    exact Hend.
Qed.

Lemma process_line_first_fragment (line : str) (st : State) :
  fst (process_line line st) = [line]
  \/ exists (p more : str) (others : list str),
       p <> [] /\ line = p ++ more
       /\ fst (process_line line st) = (p ++ [newline]) :: others.
Proof.
  destruct (process_line_pieces line st) as [pieces [rest [-> [Hc [Hne _]]]]].
  destruct pieces as [|p pieces].
  - left. simpl in *. congruence.
  - right. exists p, (concat pieces ++ rest), (map with_newline pieces ++ [rest]).
    inversion Hne; subst. split; [assumption|]. split.
    + simpl. rewrite <- app_assoc. reflexivity.
    + reflexivity.
Qed.

Lemma bracketed_not_skipped (f : str) :
  starts_with_lparen f -> ends_with_newline f = true -> not_skipped f.
Proof.
  unfold starts_with_lparen. intros Hs He.
  destruct f as [|c f]; [discriminate|]. simpl in Hs. injection Hs as ->.
  split.
  - destruct f; [discriminate|]. simpl. discriminate.
  - destruct f; vm_compute; discriminate.
Qed.

Lemma fragments_not_skipped (line : str) (st : State) :
  not_skipped line -> ends_with_newline line = true ->
  Forall not_skipped (fst (process_line line st)).
Proof.
  intros [Hlen Hcomment] Hend.
  pose proof (process_line_fragment_starts line st) as Hstarts.
  pose proof (@process_line_fragments_end line st Hend) as Hends.
  destruct (process_line_first_fragment line st) as [E|[p [more [others [Hp [Hl E]]]]]];
    rewrite E in *.
  - constructor; [split; assumption|constructor].
  - inversion Hends as [|? ? _ Hothers]; subst. cbn [tl] in Hstarts.
    constructor.
    + split.
      * rewrite length_app. simpl. destruct p; [contradiction|simpl; lia].
      * intros Hc. apply Hcomment. unfold slice_to in *.
        destruct p as [|c1 [|c2 p]]; [contradiction| |].
        -- vm_compute in Hc. discriminate.
        -- simpl in Hc. simpl. exact Hc.
    + clear - Hstarts Hothers. induction others as [|f others IH]; [constructor|].
      inversion Hstarts; inversion Hothers; subst.
      constructor; [apply bracketed_not_skipped; assumption|].
      apply IH; assumption.
Qed.

Lemma file_step_skipped (lines_count : str) (r : Run) (line : str) :
  length line = 1 \/ slice_to line 2 = lit "--" ->
  temp_state (file_step lines_count r line) = temp_state r
  /\ output_lines (file_step lines_count r line) = output_lines r ++ [line].
Proof.
  intros [Hlen|Hc].
  - unfold file_step. rewrite Hlen. simpl. split; reflexivity.
  - apply file_step_comment. exact Hc.
Qed.

Lemma not_skipped_dec (line : str) :
  {length line = 1 \/ slice_to line 2 = lit "--"} + {not_skipped line}.
Proof.
  destruct (Nat.eq_dec (length line) 1) as [Hlen|Hlen]; [left; left; exact Hlen|].
  destruct (str_eqb (slice_to line 2) (lit "--")) eqn:E.
  - left. right. apply str_eqb_eq. exact E.
  - right. split; [exact Hlen|]. intros Hc. apply str_eqb_eq in Hc. congruence.
Qed.

(** What a turn of the loop puts out for a line goes through the loop again
    unchanged, and leaves the same state. *)
Lemma file_step_again (lines_count lines_count' : str) (r r' : Run) (line : str) :
  ends_with_newline line = true ->
  temp_state r' = temp_state r ->
  exists g,
    output_lines (file_step lines_count r line) = output_lines r ++ g
    /\ output_lines (fold_left (file_step lines_count') g r') = output_lines r' ++ g
    /\ temp_state (fold_left (file_step lines_count') g r')
       = temp_state (file_step lines_count r line).
Proof.
  intros Hend Hst.
  destruct (not_skipped_dec line) as [Hskip|Hnot].
  - exists [line].
    destruct (@file_step_skipped lines_count r line Hskip) as [Ht Ho].
    destruct (@file_step_skipped lines_count' r' line Hskip) as [Ht' Ho'].
    cbn [fold_left]. rewrite Ht, Ho, Ht', Ho'. auto.
  - exists (fst (process_line line (temp_state r))).
    destruct Hnot as [Hlen Hc].
    destruct (@file_step_other lines_count r line Hlen Hc) as [Ht Ho].
    destruct (@fold_file_step_fragments lines_count'
                (fst (process_line line (temp_state r))) r') as [Ho' Ht'].
    { apply fragments_not_skipped; [split; assumption|exact Hend]. }
    rewrite Ht, Ho, Ho', Ht', Hst, process_fragments_process_line. auto.
Qed.

Lemma fold_file_step_again (lines_count lines_count' : str) (lines : list str) :
  forallb ends_with_newline lines = true ->
  forall r r', temp_state r' = temp_state r ->
  exists out,
    output_lines (fold_left (file_step lines_count) lines r) = output_lines r ++ out
    /\ output_lines (fold_left (file_step lines_count') out r') = output_lines r' ++ out
    /\ temp_state (fold_left (file_step lines_count') out r')
       = temp_state (fold_left (file_step lines_count) lines r).
Proof.
  induction lines as [|line lines IH]; intros Hends r r' Hst.
  - exists []. simpl. rewrite !app_nil_r. auto.
  - cbn [forallb] in Hends. apply andb_true_iff in Hends. destruct Hends as [Hl Hls].
    destruct (@file_step_again lines_count lines_count' r r' line Hl Hst)
      as [g [Hg [Hg' Hgs]]].
    destruct (IH Hls (file_step lines_count r line)
                 (fold_left (file_step lines_count') g r') Hgs)
      as [out [Ho [Ho' Hos]]].
    exists (g ++ out). cbn [fold_left].
    rewrite fold_left_app, Ho, Ho', Hg, Hg', Hos, !app_assoc. auto.
Qed.

(** ** Counting quotes and brackets *)

Lemma feed_char_plain (c : ascii) (b : Z) (q : bool) :
  c <> backslash ->
  exists b',
    feed_char c (b, q, false) = (b', xorb q (Ascii.eqb c quote), false)
    /\ (b - (if Ascii.eqb c rparen then 1 else 0)
        <= b' <= b + (if Ascii.eqb c lparen then 1 else 0))%Z.
Proof.
  intros Hc. unfold feed_char, flags, of_flags.
  by_char c; try contradiction; destruct q; simpl;
    try (destruct (Z.eqb_spec b 0)); try (destruct (Z.ltb_spec 0 b)); simpl;
    eexists; (split; [reflexivity|lia]).
Qed.

Lemma feed_char_depth (c : ascii) (k : Z * bool * bool) :
  (fst (fst k) - (if Ascii.eqb c rparen then 1 else 0)
   <= fst (fst (feed_char c k))
   <= fst (fst k) + (if Ascii.eqb c lparen then 1 else 0))%Z.
Proof.
  destruct k as [[b q] e]. unfold feed_char, flags, of_flags.
  by_char c; destruct q, e; simpl;
    try (destruct (Z.eqb_spec b 0)); try (destruct (Z.ltb_spec 0 b)); simpl; lia.
Qed.

Lemma feed_depth (s : str) (k : Z * bool * bool) :
  (fst (fst k) - Z.of_nat (count_rparen s)
   <= fst (fst (feed s k))
   <= fst (fst k) + Z.of_nat (count_lparen s))%Z.
Proof.
  induction s as [|c s IH] using rev_ind.
  - simpl. lia.
  - rewrite feed_app, count_rparen_snoc, count_lparen_snoc.
    cbn [feed fold_left].
    pose proof (feed_char_depth c (feed s k)) as Hc.
    destruct (Ascii.eqb c rparen), (Ascii.eqb c lparen); lia.
Qed.

Lemma count_quote_snoc (s : str) (c : ascii) :
  count_quote (s ++ [c]) = count_quote s + (if Ascii.eqb c quote then 1 else 0).
Proof.
  unfold count_quote. rewrite filter_app, length_app. simpl.
  destruct (Ascii.eqb c quote); reflexivity.
Qed.

Lemma feed_quote_parity (s : str) (b : Z) (q : bool) :
  no_backslash s = true ->
  exists b', feed s (b, q, false) = (b', xorb q (Nat.odd (count_quote s)), false).
Proof.
  induction s as [|c s IH] using rev_ind; intros Hno.
  - exists b. simpl. rewrite xorb_false_r. reflexivity.
  - unfold no_backslash in Hno. rewrite forallb_app in Hno.
    apply andb_true_iff in Hno. destruct Hno as [Hs Hc].
    destruct (IH Hs) as [b1 E].
    assert (Hb : c <> backslash).
    { simpl in Hc. destruct (Ascii.eqb_spec c backslash); [discriminate|assumption]. }
    destruct (@feed_char_plain c b1 (xorb q (Nat.odd (count_quote s))) Hb)
      as [b2 [E2 _]].
    exists b2. rewrite feed_app, E. cbn [feed fold_left]. rewrite E2.
    rewrite count_quote_snoc. f_equal. f_equal.
    destruct (Ascii.eqb c quote).
    + rewrite Nat.add_1_r, Nat.odd_succ, <- Nat.negb_odd.
      destruct q, (Nat.odd (count_quote s)); reflexivity.
    + rewrite Nat.add_0_r, xorb_false_r. reflexivity.
Qed.

(** ** Counting the cuts *)

Lemma depth_0_to_1_at_top_open (line : str) (st : State) (n : nat) (c : ascii) :
  nth_error line n = Some c ->
  depth_0_to_1_at line st n = top_open c (scan line st n).
Proof.
  intros Ec. unfold depth_0_to_1_at, depth_before, depth_after.
  rewrite scan_S. unfold body. rewrite Ec.
  destruct (top_open c (scan line st n)) eqn:Etop.
  - destruct (@on_char_top_open_depth line n c (scan line st n) Etop) as [-> ->].
    reflexivity.
  - destruct (Z.eqb_spec (v_brackets (scan line st n)) 0) as [E0|]; [|reflexivity].
    destruct (Z.eqb_spec (v_brackets (on_char line n c (scan line st n))) 1)
      as [E1|]; [|reflexivity].
    rewrite (@on_char_depth_0_to_1 line n c (scan line st n) E0 E1) in Etop.
    discriminate.
Qed.

Lemma scan_cut_count (line : str) (st : State) (n : nat) :
  n <= length line ->
  length (v_processed_line (scan line st n))
  = length (filter (depth_0_to_1_at line st) (seq 1 (n - 1))).
Proof.
  induction n as [|n IH]; intros Hn.
  - reflexivity.
  - rewrite scan_S.
    destruct (@body_in_range line n (scan line st n)) as [c [Ec ->]]; [lia|].
    destruct (on_char_fragments line n c (scan line st n)) as [Epl _].
    rewrite Epl. specialize (IH ltac:(lia)).
    destruct n as [|n].
    + rewrite andb_false_r. exact IH.
    + replace (S (S n) - 1) with (S (S n - 1)) by lia.
      rewrite seq_S, filter_app, length_app, <- IH.
      replace (1 + (S n - 1)) with (S n) by lia. cbn [filter].
      rewrite (@depth_0_to_1_at_top_open line st (S n) c Ec).
      destruct (top_open c (scan line st (S n))); simpl.
      * rewrite length_app. reflexivity.
      * lia.
Qed.

(** ** The state the loop of process_file ends in *)

Lemma file_step_state (lines_count : str) (r : Run) (line : str) :
  temp_state (file_step lines_count r line)
  = if skipped line then temp_state r else snd (process_line line (temp_state r)).
Proof.
  unfold file_step, skipped.
  destruct (length line =? 1); [reflexivity|].
  destruct (str_eqb (slice_to line 2) (lit "--")); [reflexivity|].
  destruct (process_line line (temp_state r)). reflexivity.
Qed.

Lemma fold_file_step_state (lines_count : str) (lines : list str) (r : Run) :
  temp_state (fold_left (file_step lines_count) lines r)
  = process_lines (filter (fun line => negb (skipped line)) lines) (temp_state r).
Proof.
  revert r. induction lines as [|line lines IH]; intros r.
  - reflexivity.
  - cbn [fold_left filter]. rewrite IH, file_step_state.
    destruct (skipped line); reflexivity.
Qed.

(** * Further properties, stated *)

(** X1. Round trip for a whole file: the lines [process_file] puts out come
    in groups, one group for each line read and in the same order, and each
    group, once the newline appended to each of its fragments but the last
    is taken off, joins to the line it comes from; the text written is
    these groups one after the other. *)
Theorem process_file_round_trip (file_name output_file_name : str) (lines : list str) :
  exists groups : list (list str),
    output_lines (file_loop lines (file_entry file_name)) = concat groups
    /\ map rejoin groups = lines
    /\ fst (process_file file_name lines output_file_name) = concat (concat groups).
Proof.
  destruct (fold_file_step_output (str_of_int (len lines)) lines (file_entry file_name))
    as [groups [Ho [Hcut _]]].
  exists groups. unfold process_file, file_loop. cbn [fst].
  rewrite Ho. cbn [file_entry output_lines app].
  split; [reflexivity|]. split; [|reflexivity].
  clear Ho. induction Hcut as [|line g lines groups Hc _ IH]; [reflexivity|].
  simpl. rewrite IH, (cut_rejoin Hc). reflexivity.
Qed.

(** X2. The text [process_file] writes is the text it read with newlines
    inserted: no character is dropped, changed or moved, and nothing but
    newlines is added. *)
Theorem process_file_inserts_newlines_only
  (file_name output_file_name : str) (lines : list str) :
  NewlinesInserted (concat lines) (fst (process_file file_name lines output_file_name)).
Proof.
  destruct (fold_file_step_output (str_of_int (len lines)) lines (file_entry file_name))
    as [groups [Ho [Hcut _]]].
  unfold process_file, file_loop. cbn [fst].
  rewrite Ho. cbn [file_entry output_lines app].
  clear Ho. induction Hcut as [|line g lines groups Hc _ IH]; [constructor|].
  simpl. rewrite concat_app.
  apply inserted_app; [apply cut_inserted; exact Hc|exact IH].
Qed.

(** X3. Every fragment [process_line] returns after the first starts with
    an opening bracket: a line is cut only right before an opening bracket. *)
Theorem fragments_after_first_start_with_bracket (line : str) (st : State) :
  Forall starts_with_lparen (tl (fst (process_line line st))).
Proof.
  apply process_line_fragment_starts.
Qed.

(** X4. [process_file] puts out at least as many lines as it read, and at
    most as many more as the text read has opening brackets. *)
Theorem process_file_line_counts (file_name : str) (lines : list str) :
  length lines
  <= length (output_lines (file_loop lines (file_entry file_name)))
  <= length lines + count_lparen (concat lines).
Proof.
  destruct (fold_file_step_output (str_of_int (len lines)) lines (file_entry file_name))
    as [groups [Ho [_ Hn]]].
  unfold file_loop. rewrite Ho. cbn [file_entry output_lines app].
  clear Ho. induction Hn as [|line g lines groups Hg _ IH]; [simpl; lia|].
  cbn [concat length]. rewrite length_app, count_lparen_app. lia.
Qed.

(** X5. A line read while a quote is open and that has no quote in it comes
    back whole as its only fragment, leaves the state as it was, and nothing
    is printed, whatever brackets it has. *)
Theorem line_inside_quotes_unchanged (line : str) (st : State)
  (Hq : in_quotes st = true) (Hno : no_quote line = true) :
  process_line line st = ([line], st) /\ process_line_stdout line st = [].
Proof.
  split.
  - rewrite (surjective_pairing (process_line line st)). f_equal.
    + apply process_line_not_split. intros i c _ _.
      unfold top_open.
      destruct (@scan_in_quotes line st i Hq Hno) as [-> _].
      rewrite andb_false_r. reflexivity.
    + unfold process_line. cbn [snd].
      destruct (@scan_in_quotes line st (length line) Hq Hno) as [Ei Eb].
      fold (scan_line line st) in Ei, Eb. rewrite Ei, Eb, <- Hq.
      destruct st. reflexivity.
  - apply scan_in_quotes_stdout; assumption.
Qed.

Lemma line_inside_quotes_unchanged_witness :
  (in_quotes (mkState true 0) = true /\ no_quote (lit "b),(c\(d)") = true)
  /\ process_line (lit "b),(c\(d)") (mkState true 0)
     = ([lit "b),(c\(d)"], mkState true 0).
Proof.
  split; [split; reflexivity|].
  exact (proj1 (@line_inside_quotes_unchanged (lit "b),(c\(d)") (mkState true 0)
                  eq_refl eq_refl)).
Defined.

(** X6. The fragments of a line are stable: fed to [process_line] again one
    after the other, as lines of their own and from the same incoming
    state, each comes back as it is, and the state at the end is the state
    the line itself gave. *)
Theorem process_line_fragments_stable (line : str) (st : State) :
  process_fragments (fst (process_line line st)) st = process_line line st.
Proof.
  apply process_fragments_process_line.
Qed.

(** X7. When every line read ends with a newline, the lines the loop of
    [process_file] puts out are stable: read again they are put out
    unchanged, and so is the text written. *)
Theorem process_file_output_stable
  (file_name file_name' output_file_name output_file_name' : str) (lines : list str)
  (Hends : forallb ends_with_newline lines = true) :
  let out := output_lines (file_loop lines (file_entry file_name)) in
  output_lines (file_loop out (file_entry file_name')) = out
  /\ fst (process_file file_name' out output_file_name')
     = fst (process_file file_name lines output_file_name).
Proof.
  destruct (@fold_file_step_again (str_of_int (len lines))
              (str_of_int (len (output_lines (file_loop lines (file_entry file_name)))))
              lines Hends (file_entry file_name) (file_entry file_name') eq_refl)
    as [out [Ho [Ho' _]]].
  cbn [file_entry output_lines app] in Ho, Ho'.
  assert (E : output_lines (file_loop (output_lines (file_loop lines (file_entry file_name)))
                                      (file_entry file_name'))
              = output_lines (file_loop lines (file_entry file_name))).
  { unfold file_loop in *. rewrite <- Ho in Ho'. exact Ho'. }
  cbv zeta. split; [exact E|].
  unfold process_file. cbn [fst]. rewrite E. reflexivity.
Qed.

Lemma process_file_output_stable_witness :
  forallb ends_with_newline sample_lines = true
  /\ output_lines
       (file_loop (output_lines (file_loop sample_lines (file_entry (lit "a"))))
                  (file_entry (lit "b")))
     = output_lines (file_loop sample_lines (file_entry (lit "a"))).
Proof.
  split; [reflexivity|].
  exact (proj1 (@process_file_output_stable (lit "a") (lit "b") (lit "c") (lit "d")
                  sample_lines eq_refl)).
Defined.

(** X8. All [process_line] prints is its warning followed by the line it
    is reading, once for each closing bracket it finds unbalanced, so at
    most as many times as the line has closing brackets. *)
Theorem warnings_printed (line : str) (st : State) :
  exists k, k <= count_rparen line
            /\ process_line_stdout line st = concat (repeat [warning; line] k).
Proof.
  destruct (scan_stdout line st (length line)) as [k [Hk Hout]].
  rewrite firstn_all in Hk. exists k. split; [exact Hk|exact Hout].
Qed.

(** X9. Carrying the state from line to line is the same as reading the
    lines as one: when no line ends with a backslash, the state after
    [process_line] went through the lines in turn is the state it returns
    for their concatenation. *)
Theorem process_lines_as_one_line (lines : list str) (st : State)
  (Hends : forallb ends_unescaped lines = true) :
  process_lines lines st = snd (process_line (concat lines) st).
Proof.
  rewrite process_line_state. apply process_lines_feed. exact Hends.
Qed.

Lemma process_lines_as_one_line_witness :
  forallb ends_unescaped sample_lines = true
  /\ process_lines sample_lines initial_state
     = snd (process_line (concat sample_lines) initial_state).
Proof.
  split; [reflexivity|].
  exact (@process_lines_as_one_line sample_lines initial_state eq_refl).
Defined.

(** X10. On a line without backslash every quote toggles the quote flag:
    the flag returned is the incoming one if the number of quotes of the
    line is even, and its opposite if it is odd. *)
Theorem quote_flag_parity (line : str) (st : State)
  (Hno : no_backslash line = true) :
  in_quotes (snd (process_line line st))
  = xorb (in_quotes st) (Nat.odd (count_quote line)).
Proof.
  rewrite process_line_state.
  destruct (@feed_quote_parity line (brackets st) (in_quotes st) Hno) as [b' E].
  unfold flags_of. rewrite E. reflexivity.
Qed.

Lemma quote_flag_parity_witness :
  no_backslash (lit "(1,'a'),(2,'b") = true
  /\ in_quotes (snd (process_line (lit "(1,'a'),(2,'b") initial_state))
     = xorb (in_quotes initial_state) (Nat.odd (count_quote (lit "(1,'a'),(2,'b"))).
Proof.
  split; [reflexivity|].
  exact (@quote_flag_parity (lit "(1,'a'),(2,'b") initial_state eq_refl).
Defined.

(** X11. The depth [process_line] returns is at most the incoming depth
    plus the number of opening brackets of the line, and at least the
    incoming depth minus its number of closing brackets. *)
Theorem depth_bounds (line : str) (st : State) :
  (brackets st - Z.of_nat (count_rparen line)
   <= brackets (snd (process_line line st))
   <= brackets st + Z.of_nat (count_lparen line))%Z.
Proof.
  rewrite process_line_state.
  pose proof (feed_depth line (flags_of st)) as H.
  destruct (feed line (flags_of st)) as [[b q] e]. exact H.
Qed.

(** X12. [process_line] returns one fragment more than there are positions
    after the first at which the depth goes from 0 to 1. *)
Theorem fragment_count (line : str) (st : State) :
  length (fst (process_line line st))
  = 1 + length (filter (depth_0_to_1_at line st) (seq 1 (length line - 1))).
Proof.
  unfold process_line. cbn [fst]. rewrite length_app. cbn [length].
  unfold scan_line. rewrite scan_cut_count by lia. lia.
Qed.

(** X13. When no line ends with a backslash, the state the loop of
    [process_file] ends in is the state [process_line] returns for the
    text made of the lines that are not copied, read as one line: the lines
    copied (one character long, or starting with two dashes) count for
    nothing in it. *)
Theorem file_loop_state (lines : list str) (r : Run)
  (Hends : forallb ends_unescaped lines = true) :
  temp_state (file_loop lines r)
  = snd (process_line (concat (filter (fun line => negb (skipped line)) lines))
                      (temp_state r)).
Proof.
  unfold file_loop.
  rewrite fold_file_step_state, process_line_state.
  apply process_lines_feed.
  rewrite forallb_forall in *. intros line Hin.
  apply filter_In in Hin. apply Hends. apply Hin.
Qed.

Lemma file_loop_state_witness :
  forallb ends_unescaped sample_lines = true
  /\ temp_state (file_loop sample_lines (file_entry (lit "a")))
     = snd (process_line
              (concat (filter (fun line => negb (skipped line)) sample_lines))
              initial_state).
Proof.
  split; [reflexivity|].
  exact (@file_loop_state sample_lines (file_entry (lit "a")) eq_refl).
Defined.

(** * The prompts *)

Lemma str_eqb_refl (s : str) : str_eqb s s = true.
Proof.
  apply str_eqb_eq. reflexivity.
Qed.

Lemma str_eqb_neq (s t : str) : s <> t -> str_eqb s t = false.
Proof.
  intros H. destruct (str_eqb s t) eqn:E; [|reflexivity].
  apply str_eqb_eq in E. contradiction.
Qed.

Lemma str_eqb_false (s t : str) : str_eqb s t = false -> s <> t.
Proof.
  intros E H. apply str_eqb_eq in H. congruence.
Qed.

Lemma ask_value_first_answer (k depth : nat) (message a : str)
  (rest shown0 : list str) :
  a <> [] -> k < depth ->
  ask_value depth message (mkConsole (repeat [] k ++ a :: rest) shown0)
  = Returns a (mkConsole rest (shown0 ++ repeat message (S k))).
Proof.
  intros Ha. revert depth shown0.
  induction k as [|k IH]; intros [|depth] shown0 Hk; try lia.
  - simpl. unfold console_input. simpl.
    rewrite (str_eqb_neq Ha). reflexivity.
  - cbn [repeat app ask_value]. unfold console_input. cbn [typed shown bind].
    cbn [str_eqb]. rewrite IH by lia.
    rewrite <- app_assoc. reflexivity.
Qed.

Lemma ask_value_answer (depth : nat) (message a : str) (rest shown0 : list str) :
  a <> [] -> 0 < depth ->
  ask_value depth message (mkConsole (a :: rest) shown0)
  = Returns a (mkConsole rest (shown0 ++ [message])).
Proof.
  intros Ha Hd. exact (@ask_value_first_answer 0 depth message a rest shown0 Ha Hd).
Qed.

Lemma ask_value_no_answer (k depth : nat) (message : str) (shown0 : list str) :
  k < depth ->
  ask_value depth message (mkConsole (repeat [] k) shown0)
  = EOFError (mkConsole [] (shown0 ++ repeat message (S k))).
Proof.
  revert depth shown0.
  induction k as [|k IH]; intros [|depth] shown0 Hk; try lia.
  - reflexivity.
  - cbn [repeat app ask_value]. unfold console_input. cbn [typed shown bind].
    cbn [str_eqb]. rewrite IH by lia.
    rewrite <- app_assoc. reflexivity.
Qed.

Lemma ask_value_returned (depth : nat) (message a : str) (c c' : Console) :
  ask_value depth message c = Returns a c' ->
  a <> []
  /\ exists k, typed c = repeat [] k ++ a :: typed c'
               /\ shown c' = shown c ++ repeat message (S k).
Proof.
  revert c. induction depth as [|depth IH]; intros c H; [discriminate|].
  cbn [ask_value] in H. unfold console_input in H.
  destruct c as [[|answer rest] shown0]; cbn [typed shown bind] in *;
    [discriminate|].
  destruct (str_eqb answer []) eqn:E.
  - apply str_eqb_eq in E. subst answer.
    destruct (IH _ H) as [Ha [k [Ht Hs]]]. cbn [typed shown] in *.
    split; [exact Ha|]. exists (S k). split.
    + rewrite Ht. reflexivity.
    + rewrite Hs, <- app_assoc. reflexivity.
  - injection H as -> <-. split; [apply str_eqb_false; exact E|].
    exists 0. split; reflexivity.
Qed.

Lemma bind_returns {A B : Type} (m : Outcome A) (k : A -> Console -> Outcome B)
  (b : B) (c' : Console) :
  bind m k = Returns b c' ->
  exists a c1, m = Returns a c1 /\ k a c1 = Returns b c'.
Proof.
  destruct m as [a c1| |]; simpl; intros H; try discriminate.
  exists a, c1. split; [reflexivity|exact H].
Qed.

Lemma file_exists_returned (isfile : str -> bool) (depth : nat) (file_name : str)
  (c c' : Console) (found : bool) :
  file_exists isfile depth file_name c = Returns found c' ->
  found = isfile file_name /\ c' = c.
Proof.
  destruct depth as [|depth]; simpl; [discriminate|].
  destruct (isfile file_name); intros H; injection H as <- <-; auto.
Qed.

Lemma ask_input_file_name_returned (isfile : str -> bool) (depth : nat)
  (message f : str) (c c' : Console) :
  ask_input_file_name isfile depth message c = Returns f c' ->
  isfile f = true /\ f <> [] /\ In f (typed c)
  /\ exists pre, typed c = pre ++ typed c'.
Proof.
  revert c. induction depth as [|depth IH]; intros c H; [discriminate|].
  cbn [ask_input_file_name] in H.
  apply bind_returns in H. destruct H as [file_name [c1 [Hv H]]].
  apply bind_returns in H. destruct H as [found [c2 [Hf H]]].
  apply ask_value_returned in Hv. destruct Hv as [Hne [k [Ht _]]].
  apply file_exists_returned in Hf. destruct Hf as [-> ->].
  destruct (isfile file_name) eqn:Efile.
  - injection H as <- <-. split; [exact Efile|]. split; [exact Hne|].
    rewrite Ht. split.
    + apply in_or_app. right. left. reflexivity.
    + exists (repeat [] k ++ [file_name]). rewrite <- app_assoc. reflexivity.
  - apply IH in H. cbn [console_print typed] in H.
    destruct H as [Hi [Hn [Hin [pre Hpre]]]].
    split; [exact Hi|]. split; [exact Hn|]. rewrite Ht. split.
    + apply in_or_app. right. right. exact Hin.
    + exists (repeat [] k ++ file_name :: pre).
      rewrite Hpre, <- app_assoc. reflexivity.
Qed.

Section Confirmation.

Variables lower upper : str -> str.
Hypothesis lower_y : lower (lit "y") = lit "y".
Hypothesis upper_N : upper (lit "N") = lit "N".
Hypothesis lower_N : lower (lit "N") = lit "n".

(** The answer that ends the question: its lower case is y for yes, and n
    or nothing for no. *)
Lemma ask_confirmation_returned (depth : nat) (message yes no : str)
  (c c' : Console) (confirmed : bool) :
  lower yes = lit "y" -> upper no = lit "N" ->
  ask_confirmation lower upper depth message yes no false c = Returns confirmed c' ->
  exists (pre : list str) (answer : str),
    typed c = pre ++ answer :: typed c'
    /\ (if confirmed then lower answer = lit "y"
        else lower answer = lit "n" \/ lower answer = []).
Proof.
  revert c yes no. induction depth as [|depth IH]; intros c yes no Hyes Hno H;
    [discriminate|].
  cbn [ask_confirmation] in H. rewrite Hyes, Hno, lower_y, lower_N in H.
  apply bind_returns in H. destruct H as [answer [c1 [Hin H]]].
  unfold console_input in Hin.
  destruct c as [[|a rest] shown0]; cbn [typed shown] in *; [discriminate|].
  injection Hin as <- <-.
  destruct (str_eqb (lower a) (lit "y")) eqn:Ey.
  { injection H as <- <-. exists [], a. split; [reflexivity|].
    apply str_eqb_eq. exact Ey. }
  destruct (str_eqb (lower a) (lit "n")) eqn:En.
  { injection H as <- <-. exists [], a. split; [reflexivity|].
    left. apply str_eqb_eq. exact En. }
  destruct (str_eqb (lower a) []) eqn:Ee.
  { injection H as <- <-. exists [], a. split; [reflexivity|].
    right. apply str_eqb_eq. exact Ee. }
  apply IH in H; [|exact lower_y|exact upper_N].
  destruct H as [pre [answer [Ht Hans]]]. cbn [typed] in Ht.
  exists (a :: pre), answer. split; [rewrite Ht; reflexivity|exact Hans].
Qed.

End Confirmation.

Section OutputName.

Variables lower upper : str -> str.
Variable isfile : str -> bool.
Hypothesis lower_y : lower (lit "y") = lit "y".
Hypothesis upper_n : upper (lit "n") = lit "N".
Hypothesis upper_N : upper (lit "N") = lit "N".
Hypothesis lower_N : lower (lit "N") = lit "n".

Lemma verify_file_name_returned (depth : nat) (file_name : str) (c c' : Console)
  (verified : bool) :
  verify_file_name lower upper isfile depth file_name c = Returns verified c' ->
  (isfile file_name = false /\ verified = true /\ c' = c)
  \/ (isfile file_name = true
      /\ exists (pre : list str) (answer : str),
           typed c = pre ++ answer :: typed c'
           /\ (if verified then lower answer = lit "y"
               else lower answer = lit "n" \/ lower answer = [])).
Proof.
  destruct depth as [|depth]; [discriminate|]. cbn [verify_file_name].
  intros H. apply bind_returns in H. destruct H as [found [c1 [Hf H]]].
  apply file_exists_returned in Hf. destruct Hf as [-> ->].
  destruct (isfile file_name) eqn:Efile.
  - right. split; [reflexivity|].
    apply bind_returns in H. destruct H as [confirmed [c2 [Hc H]]].
    apply (@ask_confirmation_returned lower upper lower_y upper_N lower_N) in Hc;
      [|exact lower_y|exact upper_n].
    destruct Hc as [pre [answer [Ht Hans]]].
    exists pre, answer.
    destruct confirmed; injection H as <- <-; split; assumption.
  - left. injection H as <- <-. auto.
Qed.

Lemma ask_output_file_name_returned (depth : nat) (message f : str)
  (c c' : Console) :
  ask_output_file_name lower upper isfile depth message c = Returns f c' ->
  f <> []
  /\ ((isfile f = false /\ exists pre, typed c = pre ++ f :: typed c')
      \/ (isfile f = true
          /\ exists (pre mid : list str) (answer : str),
               typed c = pre ++ f :: mid ++ answer :: typed c'
               /\ lower answer = lit "y")).
Proof.
  revert c. induction depth as [|depth IH]; intros c H; [discriminate|].
  cbn [ask_output_file_name] in H.
  apply bind_returns in H. destruct H as [file_name [c1 [Hv H]]].
  apply bind_returns in H. destruct H as [verified [c2 [Hver H]]].
  apply ask_value_returned in Hv. destruct Hv as [Hne [k [Ht _]]].
  apply verify_file_name_returned in Hver.
  destruct verified.
  - injection H as <- <-. split; [exact Hne|].
    destruct Hver as [[Hnew [_ ->]]|[Hold [pre [answer [Ht1 Hans]]]]].
    + left. split; [exact Hnew|]. exists (repeat [] k). exact Ht.
    + right. split; [exact Hold|].
      exists (repeat [] k), pre, answer. rewrite Ht, Ht1. auto.
  - destruct Hver as [[_ [Habs _]]|[_ [pre [answer [Ht1 _]]]]]; [discriminate|].
    apply IH in H. destruct H as [Hf H]. split; [exact Hf|].
    assert (Hc : typed c = (repeat [] k ++ file_name :: pre ++ [answer]) ++ typed c2).
    { rewrite Ht, Ht1, <- !app_assoc. cbn [app]. rewrite <- app_assoc. reflexivity. }
    destruct H as [[Hnew [pre' Hp]]|[Hold [pre' [mid [a [Hp Ha]]]]]].
    + left. split; [exact Hnew|].
      exists ((repeat [] k ++ file_name :: pre ++ [answer]) ++ pre').
      rewrite Hc, Hp. apply app_assoc.
    + right. split; [exact Hold|].
      exists ((repeat [] k ++ file_name :: pre ++ [answer]) ++ pre'), mid, a.
      split; [|exact Ha]. rewrite Hc, Hp. apply app_assoc.
Qed.

End OutputName.

Lemma file_exists_run (isfile : str -> bool) (depth : nat) (file_name : str)
  (c : Console) :
  0 < depth -> file_exists isfile depth file_name c = Returns (isfile file_name) c.
Proof.
  intros Hd. destruct depth as [|depth]; [lia|]. simpl.
  destruct (isfile file_name); reflexivity.
Qed.

Lemma ask_input_file_name_finds (isfile : str -> bool) (message f : str)
  (missing rest : list str) :
  Forall (fun name => name <> [] /\ isfile name = false) missing ->
  f <> [] -> isfile f = true ->
  forall (depth : nat) (shown0 : list str),
    length missing + 2 <= depth ->
    ask_input_file_name isfile depth message (mkConsole (missing ++ f :: rest) shown0)
    = Returns f
        (mkConsole rest
           (shown0
            ++ concat (map (fun _ => [message; lit "File not found."]) missing)
            ++ [message])).
Proof.
  intros Hmissing Hf Hfile.
  induction Hmissing as [|name missing [Hname Hnot] _ IH]; intros depth shown0 Hd;
    (destruct depth as [|depth]; [simpl in Hd; lia|]);
    cbn [ask_input_file_name app length] in *.
  - pose proof (@ask_value_answer depth message f rest shown0 Hf) as Ev.
    unfold str in *. rewrite Ev by lia. cbn [bind].
    rewrite file_exists_run by lia. rewrite Hfile. reflexivity.
  - pose proof (@ask_value_answer depth message name (missing ++ f :: rest)
                  shown0 Hname) as Ev.
    unfold str in *. rewrite Ev by lia. cbn [bind].
    rewrite file_exists_run by lia. rewrite Hnot.
    unfold console_print. cbn [bind typed shown].
    rewrite IH by lia.
    cbn [map concat]. rewrite <- !app_assoc. reflexivity.
Qed.

Section OutputNameAnswers.

Variables lower upper : str -> str.
Variable isfile : str -> bool.
Hypothesis lower_y : lower (lit "y") = lit "y".
Hypothesis upper_n : upper (lit "n") = lit "N".
Hypothesis lower_N : lower (lit "N") = lit "n".

Lemma ask_output_file_name_new (depth : nat) (message f : str)
  (rest shown0 : list str) :
  f <> [] -> isfile f = false -> 3 <= depth ->
  ask_output_file_name lower upper isfile depth message (mkConsole (f :: rest) shown0)
  = Returns f (mkConsole rest (shown0 ++ [message])).
Proof.
  intros Hf Hnew Hd. destruct depth as [|[|[|depth]]]; try lia.
  cbn [ask_output_file_name].
  pose proof (@ask_value_answer (S (S depth)) message f rest shown0 Hf) as Ev.
  unfold str in *. rewrite Ev by lia.
  cbn [bind verify_file_name file_exists]. rewrite Hnew. reflexivity.
Qed.

(** The first question about a file that exists, and the console after the
    answer to it. *)
Lemma ask_output_file_name_existing (depth : nat) (message f answer : str)
  (rest shown0 : list str) :
  f <> [] -> isfile f = true ->
  let c2 :=
    mkConsole rest
      (shown0
       ++ [message]
       ++ [(lit "File exists! Do you want to overwrite file " ++ f ++ lit "? ")
           ++ lit " [" ++ lit "y" ++ lit "/" ++ lit "N" ++ lit "]: "]) in
  (lower answer = lit "y" ->
   ask_output_file_name lower upper isfile (S (S (S depth))) message
     (mkConsole (f :: answer :: rest) shown0)
   = Returns f c2)
  /\ (lower answer = lit "n" \/ lower answer = [] ->
      ask_output_file_name lower upper isfile (S (S (S depth))) message
        (mkConsole (f :: answer :: rest) shown0)
      = ask_output_file_name lower upper isfile (S (S depth)) message c2).
Proof.
  intros Hf Hold c2.
  assert (Hstep :
    ask_output_file_name lower upper isfile (S (S (S depth))) message
      (mkConsole (f :: answer :: rest) shown0)
    = bind
        (bind (if str_eqb (lower answer) (lit "y") then Returns true c2
               else if str_eqb (lower answer) (lit "n") then Returns false c2
               else if str_eqb (lower answer) [] then Returns false c2
               else ask_confirmation lower upper depth
                      (lit "File exists! Do you want to overwrite file "
                       ++ f ++ lit "? ")
                      (lit "y") (lit "N") false c2)
              (fun confirmed c =>
                 if confirmed then Returns true c else Returns false c))
        (fun verified c =>
           if verified then Returns f c
           else ask_output_file_name lower upper isfile (S (S depth)) message c)).
  { cbn [ask_output_file_name].
    pose proof (@ask_value_answer (S (S depth)) message f (answer :: rest)
                  shown0 Hf) as Ev.
    unfold str in *. rewrite Ev by lia.
    cbn [bind verify_file_name file_exists]. rewrite Hold.
    cbn [bind ask_confirmation]. rewrite lower_y, upper_n, lower_y, lower_N.
    unfold console_input. cbn [typed shown bind].
    subst c2. rewrite <- !app_assoc.
    destruct (str_eqb (lower answer) (lit "y")); [reflexivity|].
    destruct (str_eqb (lower answer) (lit "n")); [reflexivity|].
    destruct (str_eqb (lower answer) []); reflexivity. }
  split.
  - intros Hy. rewrite Hstep, Hy. reflexivity.
  - intros [Hn|Hn]; rewrite Hstep, Hn; reflexivity.
Qed.

End OutputNameAnswers.

(** * The prompts: properties *)

(** X14. [ask_value] asks again as long as the answer is empty: after [k]
    empty answers it returns the next answer, if that one is not empty,
    having shown the message [k + 1] times; and if nothing more is typed
    after them the call ends with [EOFError]. The nesting allowed has to be
    more than [k]. *)
Theorem ask_value_skips_empty_answers (k depth : nat) (message : str)
  (shown0 : list str) (Hk : k < depth) :
  (forall (a : str) (rest : list str),
      a <> [] ->
      ask_value depth message (mkConsole (repeat [] k ++ a :: rest) shown0)
      = Returns a (mkConsole rest (shown0 ++ repeat message (S k))))
  /\ ask_value depth message (mkConsole (repeat [] k) shown0)
     = EOFError (mkConsole [] (shown0 ++ repeat message (S k))).
Proof.
  split.
  - intros a rest Ha. apply ask_value_first_answer; assumption.
  - apply ask_value_no_answer. exact Hk.
Qed.

Lemma ask_value_skips_empty_answers_witness :
  2 < 5
  /\ ask_value 5 (lit "Input file name: ") (mkConsole [[]; []] [])
     = EOFError (mkConsole [] (repeat (lit "Input file name: ") 3)).
Proof.
  assert (H : 2 < 5) by lia.
  split; [exact H|].
  exact (proj2 (@ask_value_skips_empty_answers 2 5 (lit "Input file name: ") [] H)).
Defined.

(** X15. What [ask_value] returns is never empty: it is the first answer
    typed that is not empty, the answers before it were empty, what is left
    to read is what was typed after it, and the message has been shown once
    for each answer read. *)
Theorem ask_value_result (depth : nat) (message a : str) (c c' : Console)
  (H : ask_value depth message c = Returns a c') :
  a <> []
  /\ exists k, typed c = repeat [] k ++ a :: typed c'
               /\ shown c' = shown c ++ repeat message (S k).
Proof.
  apply ask_value_returned with (depth := depth). exact H.
Qed.

Lemma ask_value_result_witness :
  ask_value 4 (lit "? ") (mkConsole [[]; lit "a.sql"; lit "b"] [])
  = Returns (lit "a.sql") (mkConsole [lit "b"] [lit "? "; lit "? "])
  /\ lit "a.sql" <> [].
Proof.
  assert (H : ask_value 4 (lit "? ") (mkConsole [[]; lit "a.sql"; lit "b"] [])
              = Returns (lit "a.sql") (mkConsole [lit "b"] [lit "? "; lit "? "]))
    by reflexivity.
  split; [exact H|].
  exact (proj1 (@ask_value_result 4 (lit "? ") (lit "a.sql") _ _ H)).
Defined.

(** X16. The name [ask_input_file_name] returns is the name of a file that
    exists; it is not empty and is one of the answers typed. *)
Theorem ask_input_file_name_result (isfile : str -> bool) (depth : nat)
  (message f : str) (c c' : Console)
  (H : ask_input_file_name isfile depth message c = Returns f c') :
  isfile f = true /\ f <> [] /\ In f (typed c)
  /\ exists pre, typed c = pre ++ typed c'.
Proof.
  apply ask_input_file_name_returned with (depth := depth) (message := message).
  exact H.
Qed.

Lemma ask_input_file_name_result_witness :
  ask_input_file_name sample_isfile 6 (lit "? ")
    (mkConsole [lit "in.sql"; []; lit "out.sql"; lit "x"] [])
  = Returns (lit "out.sql")
      (mkConsole [lit "x"] [lit "? "; lit "File not found."; lit "? "; lit "? "])
  /\ sample_isfile (lit "out.sql") = true.
Proof.
  assert (H : ask_input_file_name sample_isfile 6 (lit "? ")
                (mkConsole [lit "in.sql"; []; lit "out.sql"; lit "x"] [])
              = Returns (lit "out.sql")
                  (mkConsole [lit "x"]
                     [lit "? "; lit "File not found."; lit "? "; lit "? "]))
    by reflexivity.
  split; [exact H|].
  exact (proj1 (@ask_input_file_name_result sample_isfile 6 (lit "? ") _ _ _ H)).
Defined.

(** X17. [ask_input_file_name] goes on asking until a name typed is the
    name of a file: after names of files that do not exist it returns the
    first name of a file that does, and has shown the message and
    [File not found.] for each of the names before. The nesting allowed has
    to be two more than the number of those names. *)
Theorem ask_input_file_name_asks_until_found (isfile : str -> bool)
  (message f : str) (missing rest : list str) (depth : nat) (shown0 : list str)
  (Hmissing : Forall (fun name => name <> [] /\ isfile name = false) missing)
  (Hf : f <> []) (Hfile : isfile f = true)
  (Hdepth : length missing + 2 <= depth) :
  ask_input_file_name isfile depth message (mkConsole (missing ++ f :: rest) shown0)
  = Returns f
      (mkConsole rest
         (shown0
          ++ concat (map (fun _ => [message; lit "File not found."]) missing)
          ++ [message])).
Proof.
  apply ask_input_file_name_finds; assumption.
Qed.

Lemma ask_input_file_name_asks_until_found_witness :
  ask_input_file_name sample_isfile 3 (lit "? ")
    (mkConsole ([lit "in.sql"] ++ lit "out.sql" :: []) [])
  = Returns (lit "out.sql")
      (mkConsole []
         ([] ++ concat (map (fun _ => [lit "? "; lit "File not found."]) [lit "in.sql"])
          ++ [lit "? "])).
Proof.
  apply ask_input_file_name_asks_until_found.
  - constructor; [|constructor]. split; [discriminate|reflexivity].
  - discriminate.
  - reflexivity.
  - simpl. lia.
Defined.

(** X18. [ask_output_file_name] never returns the name of a file that
    exists unless the user said yes to overwriting it: the name returned is
    not empty and was typed; either no file has this name, or a later
    answer, the last one read, is y in lower case. (With the case mappings
    as they are on the letters y and n.) *)
Theorem ask_output_file_name_result (lower upper : str -> str) (isfile : str -> bool)
  (depth : nat) (message f : str) (c c' : Console)
  (lower_y : lower (lit "y") = lit "y")
  (upper_n : upper (lit "n") = lit "N")
  (upper_N : upper (lit "N") = lit "N")
  (lower_N : lower (lit "N") = lit "n")
  (H : ask_output_file_name lower upper isfile depth message c = Returns f c') :
  f <> []
  /\ ((isfile f = false /\ exists pre, typed c = pre ++ f :: typed c')
      \/ (isfile f = true
          /\ exists (pre mid : list str) (answer : str),
               typed c = pre ++ f :: mid ++ answer :: typed c'
               /\ lower answer = lit "y")).
Proof.
  apply (@ask_output_file_name_returned lower upper isfile lower_y upper_n upper_N
           lower_N depth message f c c' H).
Qed.

Lemma ask_output_file_name_result_witness :
  ask_output_file_name lower_ascii upper_ascii sample_isfile 8 (lit "? ")
    (mkConsole [lit "out.sql"; lit "maybe"; []; lit "out.sql"; lit "Y"; lit "z"] [])
  = Returns (lit "out.sql")
      (mkConsole [lit "z"]
         [lit "? ";
          lit "File exists! Do you want to overwrite file out.sql?  [y/N]: ";
          lit "File exists! Do you want to overwrite file out.sql?  [y/N]: ";
          lit "? ";
          lit "File exists! Do you want to overwrite file out.sql?  [y/N]: "])
  /\ lit "out.sql" <> [].
Proof.
  assert (H : ask_output_file_name lower_ascii upper_ascii sample_isfile 8 (lit "? ")
                (mkConsole [lit "out.sql"; lit "maybe"; []; lit "out.sql"; lit "Y";
                            lit "z"] [])
              = Returns (lit "out.sql")
                  (mkConsole [lit "z"]
                     [lit "? ";
                      lit "File exists! Do you want to overwrite file out.sql?  [y/N]: ";
                      lit "File exists! Do you want to overwrite file out.sql?  [y/N]: ";
                      lit "? ";
                      lit "File exists! Do you want to overwrite file out.sql?  [y/N]: "]))
    by reflexivity.
  split; [exact H|].
  exact (proj1 (@ask_output_file_name_result lower_ascii upper_ascii sample_isfile
                  8 (lit "? ") (lit "out.sql") _ _
                  eq_refl eq_refl eq_refl eq_refl H)).
Defined.

(** X19. A name typed that is not empty and is not the name of a file is
    returned by [ask_output_file_name] at once, without any further
    question (the nesting allowed has to be at least 3). *)
Theorem ask_output_file_name_new_file (lower upper : str -> str)
  (isfile : str -> bool) (depth : nat) (message f : str) (rest shown0 : list str)
  (Hf : f <> []) (Hnew : isfile f = false) (Hdepth : 3 <= depth) :
  ask_output_file_name lower upper isfile depth message (mkConsole (f :: rest) shown0)
  = Returns f (mkConsole rest (shown0 ++ [message])).
Proof.
  apply ask_output_file_name_new; assumption.
Qed.

Lemma ask_output_file_name_new_file_witness :
  ask_output_file_name lower_ascii upper_ascii sample_isfile 3 (lit "? ")
    (mkConsole (lit "new.sql" :: [lit "y"]) [])
  = Returns (lit "new.sql") (mkConsole [lit "y"] ([] ++ [lit "? "])).
Proof.
  apply ask_output_file_name_new_file.
  - discriminate.
  - reflexivity.
  - lia.
Defined.

(** X20. When the name typed is the name of a file that exists,
    [ask_output_file_name] asks whether to overwrite it, showing [y/N]. An
    answer that is y in lower case makes it return the name. An answer that
    is n in lower case, or no answer at all (the default), makes it ask for
    a name again, with one nesting less: the file is given up, not the
    question. (With the case mappings as they are on the letters y and n.) *)
Theorem ask_output_file_name_existing_file (lower upper : str -> str)
  (isfile : str -> bool) (depth : nat) (message f answer : str)
  (rest shown0 : list str)
  (lower_y : lower (lit "y") = lit "y")
  (upper_n : upper (lit "n") = lit "N")
  (lower_N : lower (lit "N") = lit "n")
  (Hf : f <> []) (Hold : isfile f = true) :
  let c2 :=
    mkConsole rest
      (shown0
       ++ [message]
       ++ [(lit "File exists! Do you want to overwrite file " ++ f ++ lit "? ")
           ++ lit " [" ++ lit "y" ++ lit "/" ++ lit "N" ++ lit "]: "]) in
  (lower answer = lit "y" ->
   ask_output_file_name lower upper isfile (S (S (S depth))) message
     (mkConsole (f :: answer :: rest) shown0)
   = Returns f c2)
  /\ (lower answer = lit "n" \/ lower answer = [] ->
      ask_output_file_name lower upper isfile (S (S (S depth))) message
        (mkConsole (f :: answer :: rest) shown0)
      = ask_output_file_name lower upper isfile (S (S depth)) message c2).
Proof.
  apply (@ask_output_file_name_existing lower upper isfile lower_y upper_n lower_N
           depth message f answer rest shown0 Hf Hold).
Qed.

Lemma ask_output_file_name_existing_file_witness :
  ask_output_file_name lower_ascii upper_ascii sample_isfile 4 (lit "? ")
    (mkConsole [lit "out.sql"; lit "N"; lit "new.sql"] [])
  = ask_output_file_name lower_ascii upper_ascii sample_isfile 3 (lit "? ")
      (mkConsole [lit "new.sql"]
         ([] ++ [lit "? "]
          ++ [(lit "File exists! Do you want to overwrite file " ++ lit "out.sql"
               ++ lit "? ")
              ++ lit " [" ++ lit "y" ++ lit "/" ++ lit "N" ++ lit "]: "])).
Proof.
  refine (proj2 (@ask_output_file_name_existing_file lower_ascii upper_ascii
                   sample_isfile 1 (lit "? ") (lit "out.sql") (lit "N")
                   [lit "new.sql"] [] eq_refl eq_refl eq_refl _ eq_refl) _).
  - discriminate.
  - left. reflexivity.
Defined.
